(** * cellular-ts: a 3-dimensional cellular automaton drawn as an animated voxel mesh

    Shallow embedding of [src/grid/cellGrid.ts], [src/grid/gridState.ts],
    [src/mesh/face.ts], [src/mesh/animFace.ts] and [src/utils.ts], followed by
    the properties established about them.

    Conventions of the embedding:
    - grid coordinates, half-extents, cell states and array indices are
      integers ([Z]); ambient-occlusion values, animation progress and
      probabilities are rationals ([Q]);
    - what a JavaScript read can yield for a cell is a [jsval]: a number,
      [undefined] (an array hole or an index past the end) or [null];
    - an exception ([RangeError] of an array constructor, [TypeError] of a
      dereference of [null]/[undefined]) is the [None] of an [option];
    - numbers are exact: the precision of doubles and the largest length of
      an array are outside the model. *)

From Stdlib Require Import String.
From Stdlib Require Import ZArith QArith Qminmax List Bool Lia Lqa.
Import ListNotations.

#[local] Open Scope Z_scope.

(** ** JavaScript values and arrays *)

Module JS.

Inductive jsval : Type :=
| JNull
| JUndef
| JNum (n : Z).

Definition jsval_eqb (a b : jsval) : bool :=
  match a, b with
  | JNull, JNull => true
  | JUndef, JUndef => true
  | JNum n, JNum m => n =? m
  | _, _ => false
  end.

(** [v != null]: the loose comparison holds [null] and [undefined] equal. *)
Definition notNullish (v : jsval) : bool :=
  match v with
  | JNum _ => true
  | _ => false
  end.

(** [v > n] for a number [n]; [null > 0] and [undefined > 0] are false
    as soon as [n >= 0], the only use made of it. *)
Definition gt (v : jsval) (n : Z) : bool :=
  match v with
  | JNum m => m >? n
  | _ => false
  end.

(** [v == n] for a number [n]. *)
Definition looseEqNum (v : jsval) (n : Z) : bool :=
  match v with
  | JNum m => m =? n
  | _ => false
  end.

(** An array is the list of its elements; a hole reads as [JUndef]. *)
Definition array : Type := list jsval.

(** [Array<number>(n)]: [n] holes, or a [RangeError] when [n] is negative. *)
Definition Array_new (n : Z) : option array :=
  if n <? 0 then None else Some (repeat JUndef (Z.to_nat n)).

(** [a.fill(v)] *)
Definition fill (a : array) (v : jsval) : array := map (fun _ => v) a.

(** [Array.from({length: n}, f)]: the callback runs once per index, in
    order; a negative length counts as zero. *)
Definition Array_from_length (n : Z) (f : nat -> jsval) : array :=
  map f (seq 0 (Z.to_nat n)).

(** [a[i]] as an expression. *)
Definition get (a : array) (i : Z) : jsval :=
  if i <? 0 then JUndef else nth (Z.to_nat i) a JUndef.

(** [a[i] = v]: inside the array the element is replaced, past its end the
    array grows (holes in between).  A negative [i] would set a property
    that is no element; the elements are left as they are. *)
Definition set (a : array) (i : Z) (v : jsval) : array :=
  if i <? 0 then a
  else
    let n := Z.to_nat i in
    if (n <? length a)%nat
    then firstn n a ++ v :: skipn (S n) a
    else a ++ repeat JUndef (n - length a) ++ [v].

(** An object literal, as the list of its own enumerable properties. *)
Definition object : Type := list (string * Z).

(** The keys a [for (k in obj)] loop visits. *)
Definition forInKeys (o : object) : list string := map fst o.

End JS.
Import JS.

(** ** src/utils.ts *)

Module Utils.

#[local] Open Scope Q_scope.

Definition clamp (val min max : Q) : Q := Qmin (Qmax val min) max.

Definition smoothStep (control : Q) : Q :=
  let c := clamp control 0 1 in
  clamp (c * c * (3 - 2 * c)) 0 1.

Definition mix (a b control : Q) : Q := control * b + (1 - control) * a.

Definition mix3 (a b : Q * Q * Q) (control : Q) : Q * Q * Q :=
  let '(a0, a1, a2) := a in
  let '(b0, b1, b2) := b in
  (mix a0 b0 (smoothStep control),
   mix a1 b1 (smoothStep control),
   mix a2 b2 (smoothStep control)).

Definition mix4 (a b : Q * Q * Q * Q) (control : Q) : Q * Q * Q * Q :=
  let '(a0, a1, a2, a3) := a in
  let '(b0, b1, b2, b3) := b in
  (mix a0 b0 (smoothStep control),
   mix a1 b1 (smoothStep control),
   mix a2 b2 (smoothStep control),
   mix a3 b3 (smoothStep control)).

End Utils.

(** ** src/grid/cellGrid.ts: GridDimensions *)

Module GridDimensions.

(** The half-extents [X], [Y], [Z] of the source. *)
Record t : Type := make { halfX : Z; halfY : Z; halfZ : Z }.

Definition indexOf (d : t) (x y z : Z) : Z :=
  (x + halfX d) * 4 * halfY d * halfZ d + (y + halfY d) * 2 * halfZ d + (z + halfZ d).

Definition inBounds (d : t) (x y z : Z) : bool :=
  (x >=? - halfX d) && (x <? halfX d) &&
  (y >=? - halfY d) && (y <? halfY d) &&
  (z >=? - halfZ d) && (z <=? halfZ d).

(** The iterator object of [[Symbol.iterator]]: its captured [i], [j], [k]. *)
Record iter : Type := mkIter { i : Z; j : Z; k : Z }.

Definition iterator (d : t) : iter :=
  mkIter (- halfX d) (- halfY d) (- halfZ d).

(** One call of [next()]: the [done] flag, the [value], the new captured state. *)
Definition next (d : t) (s : iter) : bool * (Z * Z * Z) * iter :=
  let '(j1, k1) := if k s >=? halfZ d then (j s + 1, - halfZ d) else (j s, k s) in
  let '(i2, j2) := if j1 >=? halfY d then (i s + 1, - halfY d) else (i s, j1) in
  (i2 >=? halfX d, (i2, j2, k1), mkIter i2 j2 (k1 + 1)).

(** An upper bound on the calls of [next()] still to come that are not
    [done]; it decreases at each of them (lemma [measure_decreases]). *)
Definition measure (d : t) (s : iter) : Z :=
  let pz := Z.max 1 (2 * halfZ d) in
  let py := Z.max 1 (2 * halfY d) in
  Z.max 0 (halfZ d - k s)
  + pz * (Z.max 0 (halfY d - 1 - j s) + py * Z.max 0 (halfX d - i s)).

(** [for (let coord of dims)]: the values of the calls of [next()] up to
    the first [done]. *)
Fixpoint forOf (fuel : nat) (d : t) (s : iter) : list (Z * Z * Z) :=
  match fuel with
  | O => []
  | S fuel' =>
      let '(done, value, s') := next d s in
      if done then [] else value :: forOf fuel' d s'
  end.

Definition coords (d : t) : list (Z * Z * Z) :=
  forOf (S (Z.to_nat (measure d (iterator d)))) d (iterator d).

End GridDimensions.

(** ** src/grid/cellGrid.ts: CellGrid *)

Module CellGrid.

Record t : Type := make {
  dims : GridDimensions.t;
  cells : array;
  states : Z;
}.

(** The private constructor, with its default [states = 2]. *)
Definition new (dims : GridDimensions.t) (cells : array) (states : option Z) : t :=
  make dims cells (match states with Some s => s | None => 2 end).

Definition size (d : GridDimensions.t) : Z :=
  8 * GridDimensions.halfX d * GridDimensions.halfY d * GridDimensions.halfZ d.

Definition default (o : option Z) (d : Z) : Z :=
  match o with Some v => v | None => d end.

Definition makeEmpty (d : GridDimensions.t) (states : option Z) : option t :=
  let states := default states 2 in
  match Array_new (size d) with
  | Some a => Some (new d (fill a (JNum 0)) (Some states))
  | None => None
  end.

Definition makeFull (d : GridDimensions.t) (states : option Z) : option t :=
  let states := default states 2 in
  match Array_new (size d) with
  | Some a => Some (new d (fill a (JNum 1)) (Some states))
  | None => None
  end.

(** [random n] is the result of the [n]-th call of [Math.random()]. *)
Definition makeRandom (d : GridDimensions.t) (prob : option Q) (states : option Z)
           (random : nat -> Q) : t :=
  let prob := match prob with Some p => p | None => (1 # 2)%Q end in
  let states := default states 2 in
  new d
      (Array_from_length (size d)
         (fun n => if Qlt_le_dec (random n) prob then JNum (states - 1) else JNum 0))
      None.

Definition makeFromCells (d : GridDimensions.t) (cells : array) (states : option Z)
  : option t :=
  let states := default states 2 in
  if size d =? Z.of_nat (length cells) then Some (new d cells (Some states)) else None.

Definition getCell (g : t) (x y z : Z) : jsval :=
  if GridDimensions.inBounds (dims g) x y z
  then get (cells g) (GridDimensions.indexOf (dims g) x y z)
  else JNull.

Definition isVisible (g : t) (x y z : Z) : bool :=
  let cell := getCell g x y z in
  notNullish cell && gt cell 0.

Definition isLive (g : t) (x y z : Z) : bool :=
  let cell := getCell g x y z in
  notNullish cell && looseEqNum cell (states g - 1).

Definition neighbourPop (g : t) (x y z : Z) : Z :=
  let count :=
    fold_left (fun count i =>
      fold_left (fun count j =>
        fold_left (fun count k =>
          if isLive g i j k then count + 1 else count)
          [z - 1; z; z + 1] count)
        [y - 1; y; y + 1] count)
      [x - 1; x; x + 1] 0 in
  if isLive g x y z then count - 1 else count.

End CellGrid.

(** ** src/grid/gridState.ts *)

Module GridState.

Record t : Type := make {
  grid : CellGrid.t;
  oldGrid : CellGrid.t;
  core : CellGrid.t;
}.

Definition makeFromGrid (grid : CellGrid.t) : t := make grid grid grid.

(** The automaton rule: it is handed what [getCell] read (a number for a
    cell of a fully populated grid) and the neighbour count. *)
Definition rule : Type := jsval -> Z -> Z.

(** The body of the [for (let coord of dims)] loop of [makeUpdated], on
    the pair of arrays [(newCells, newCore)]. *)
Definition updateCell (oldGrid : CellGrid.t) (rules : rule)
           (arrays : array * array) (coord : Z * Z * Z) : array * array :=
  let '(newCells, newCore) := arrays in
  let '(x, y, z) := coord in
  let index := GridDimensions.indexOf (CellGrid.dims oldGrid) x y z in
  let newCells :=
    set newCells index
        (JNum (rules (CellGrid.getCell oldGrid x y z) (CellGrid.neighbourPop oldGrid x y z))) in
  if gt (get newCells index) 0 && CellGrid.isVisible oldGrid x y z
  then (newCells, set newCore index (JNum 1))
  else (newCells, newCore).

(** [None] stands for an exception: the [RangeError] of [Array<number>(n)]
    on a negative [n], and the [TypeError] that the first use of a state
    built on the [null] of a failed [makeFromCells] would raise (the
    non-null assertion [!] is taken as that failure). *)
Definition makeUpdated (oldState : t) (rules : rule) : option t :=
  let oldGrid := grid oldState in
  let dims := CellGrid.dims oldGrid in
  match Array_new (CellGrid.size dims), Array_new (CellGrid.size dims) with
  | Some newCells, Some newCore =>
      let '(newCells, newCore) :=
        fold_left (updateCell oldGrid rules) (GridDimensions.coords dims)
                  (newCells, newCore) in
      match CellGrid.makeFromCells dims newCells (Some (CellGrid.states oldGrid)),
            CellGrid.makeFromCells dims newCore None with
      | Some g, Some c => Some (make g oldGrid c)
      | _, _ => None
      end
  | _, _ => None
  end.

(** [for (let _ in { length: iterations })] visits the enumerable keys of
    the object literal, one key whatever the value of [iterations]. *)
Definition skipUpdates (initState : t) (rules : rule) (iterations : Z) : option t :=
  fold_left
    (fun currentState _ =>
       match currentState with
       | Some s => makeUpdated s rules
       | None => None
       end)
    (forInKeys [("length"%string, iterations)])
    (Some initState).

End GridState.

(** ** src/mesh/face.ts *)

Module Face.

#[local] Open Scope Q_scope.

Inductive SIDE : Type := XNEG | YPOS | ZNEG.

(** The number a member of the numeric enum stands for. *)
Definition SIDE_value (s : SIDE) : nat :=
  match s with XNEG => 0 | YPOS => 1 | ZNEG => 2 end.

(** [Object.values(SIDE)]: the reverse-mapping names, then the members. *)
Definition SIDE_values : list (string + SIDE) :=
  [inl "XNEG"%string; inl "YPOS"%string; inl "ZNEG"%string;
   inr XNEG; inr YPOS; inr ZNEG].

Definition SIDES : list SIDE :=
  flat_map (fun v => match v with inl _ => [] | inr s => [s] end) SIDE_values.

Definition directions : list (Z * Z * Z) :=
  [(-1, 0, 0); (0, 1, 0); (0, 0, -1)]%Z.

Definition direction (side : SIDE) : Z * Z * Z :=
  nth (SIDE_value side) directions (0, 0, 0)%Z.

Definition aos4 : Type := Q * Q * Q * Q.

Record t : Type := make {
  x : Z;
  y : Z;
  z : Z;
  side : SIDE;
  aos : aos4;
}.

Definition makeAllPos (x y z : Z) (aos : option aos4) : list t :=
  let aos := match aos with Some a => a | None => (1, 1, 1, 1) end in
  map (fun side => make x y z side aos) SIDES.

Definition vertexAO (side1 side2 corner : bool) : Q :=
  if side1 && side2 then 1 # 4
  else if (side1 && corner) || (side2 && corner) then 1 # 2
  else if side1 || side2 || corner then 3 # 4
  else 1.

Definition sideAOs (adj : list bool) : aos4 :=
  if negb (length adj =? 8)%nat then (1, 1, 1, 1)
  else
    let a n := nth n adj false in
    (vertexAO (a 0%nat) (a 2%nat) (a 1%nat),
     vertexAO (a 2%nat) (a 4%nat) (a 3%nat),
     vertexAO (a 0%nat) (a 6%nat) (a 7%nat),
     vertexAO (a 4%nat) (a 6%nat) (a 5%nat)).

Definition faceAOs (cellGrid : CellGrid.t) (x y z : Z) (side : SIDE) : aos4 :=
  let vis := CellGrid.isVisible cellGrid in
  (match side with
   | XNEG =>
       sideAOs [ vis (x - 1) y (z + 1);
                 vis (x - 1) (y - 1) (z + 1);
                 vis (x - 1) (y - 1) z;
                 vis (x - 1) (y - 1) (z - 1);
                 vis (x - 1) y (z - 1);
                 vis (x - 1) (y + 1) (z - 1);
                 vis (x - 1) (y + 1) z;
                 vis (x - 1) (y + 1) (z + 1) ]
   | YPOS =>
       sideAOs [ vis x (y + 1) (z + 1);
                 vis (x - 1) (y + 1) (z + 1);
                 vis (x - 1) (y + 1) z;
                 vis (x - 1) (y + 1) (z - 1);
                 vis x (y + 1) (z - 1);
                 vis (x + 1) (y + 1) (z - 1);
                 vis (x + 1) (y + 1) z;
                 vis (x + 1) (y + 1) (z + 1) ]
   | ZNEG =>
       sideAOs [ vis (x - 1) y (z - 1);
                 vis (x - 1) (y - 1) (z - 1);
                 vis x (y - 1) (z - 1);
                 vis (x + 1) (y - 1) (z - 1);
                 vis (x + 1) y (z - 1);
                 vis (x + 1) (y + 1) (z - 1);
                 vis x (y + 1) (z - 1);
                 vis (x - 1) (y + 1) (z - 1) ]
   end)%Z.

(** The sides [makeFromCell] keeps: those whose outward neighbour is not
    visible in the culling grid. *)
Definition visSides (cellGrid : CellGrid.t) (x y z : Z) : list SIDE :=
  filter (fun side =>
            let '(d0, d1, d2) := direction side in
            negb (CellGrid.isVisible cellGrid (x + d0) (y + d1) (z + d2))%Z)
         SIDES.

Definition makeFromCell (cellGrid : CellGrid.t) (x y z : Z)
           (aoGrid : option CellGrid.t) : list t :=
  let aoGrid := match aoGrid with Some g => g | None => cellGrid end in
  if negb (CellGrid.isVisible cellGrid x y z) then []
  else map (fun side => make x y z side (faceAOs aoGrid x y z side))
           (visSides cellGrid x y z).

Definition makeAllFromCell (x y z : Z) (aoGrid : CellGrid.t) : list t :=
  map (fun side => make x y z side (faceAOs aoGrid x y z side)) SIDES.

Definition relPositions : list (list (Q * Q * Q)) :=
  [ [ (0, 0, 1); (0, 0, 0); (0, 1, 1); (0, 1, 0) ];
    [ (0, 1, 1); (0, 1, 0); (1, 1, 1); (1, 1, 0) ];
    [ (0, 0, 0); (1, 0, 0); (0, 1, 0); (1, 1, 0) ] ].

Definition getVertices (f : t) (scale : option Q) : list (Q * Q * Q) :=
  let scale := match scale with Some s => s | None => 1 end in
  map (fun '(px, py, pz) =>
         (scale * (px - (1 # 2)) + inject_Z (x f),
          scale * (py - (1 # 2)) + inject_Z (y f),
          scale * (pz - (1 # 2)) + inject_Z (z f)))
      (nth (SIDE_value (side f)) relPositions []).

Definition getIndices (f : t) (offset : Z) : list Z :=
  let '(a0, a1, a2, a3) := aos f in
  (if negb (Qle_bool (a1 + a2) (a0 + a3))
   then [offset; offset + 1; offset + 2; offset + 1; offset + 2; offset + 3]
   else [offset; offset + 3; offset + 1; offset; offset + 2; offset + 3])%Z.

Definition getNorm (f : t) : Z * Z * Z := direction (side f).

End Face.

(** ** src/mesh/animFace.ts *)

Module AnimFace.

#[local] Open Scope Q_scope.

Inductive AnimType : Type := GROW | SHRINK | TRANSITION | AO_ONLY.

(** [start] and [end] are [Face | null]; a face read past the end of an
    array ([undefined]) is absent in the same way. *)
Record t : Type := make {
  start : option Face.t;
  end_ : option Face.t;
  type : AnimType;
}.

Definition makeGrowing (end_ : Face.t) : t := make None (Some end_) GROW.

Definition makeShrinking (start : Face.t) : t := make (Some start) None SHRINK.

(** The second argument is what the caller read from an array by index. *)
Definition makeTransition (start : Face.t) (end_ : option Face.t)
           (type : option AnimType) : t :=
  make (Some start) end_ (match type with Some ty => ty | None => TRANSITION end).

(** [a.map((v, i) => f v i)] *)
Fixpoint mapi_from {A B : Type} (n : nat) (f : A -> nat -> B) (l : list A) : list B :=
  match l with
  | [] => []
  | v :: l' => f v n :: mapi_from (S n) f l'
  end.

Definition mapi {A B : Type} (f : A -> nat -> B) (l : list A) : list B :=
  mapi_from 0 f l.

Definition makeFromCell (state : GridState.t) (x y z : Z) : list t :=
  let cellStart := CellGrid.isVisible (GridState.oldGrid state) x y z in
  let cellEnd := CellGrid.isVisible (GridState.grid state) x y z in
  if negb cellStart && negb cellEnd then []
  else if negb cellStart then
    let endFaces := Face.makeAllFromCell x y z (GridState.grid state) in
    map makeGrowing endFaces
  else if negb cellEnd then
    let startFaces := Face.makeAllFromCell x y z (GridState.oldGrid state) in
    map makeShrinking startFaces
  else
    let startFaces :=
      Face.makeFromCell (GridState.core state) x y z (Some (GridState.oldGrid state)) in
    let endFaces :=
      Face.makeFromCell (GridState.core state) x y z (Some (GridState.grid state)) in
    mapi (fun start i => makeTransition start (nth_error endFaces i) (Some AO_ONLY))
         startFaces.

Definition makeFromGridState (state : GridState.t) : list t :=
  fold_left (fun faces '(x, y, z) => faces ++ makeFromCell state x y z)
            (GridDimensions.coords (CellGrid.dims (GridState.grid state)))
            [].

(** [a.map((v, i) => f v i)] for a callback that may throw. *)
Fixpoint mapiM_from {A B : Type} (n : nat) (f : A -> nat -> option B) (l : list A)
  : option (list B) :=
  match l with
  | [] => Some []
  | v :: l' =>
      match f v n with
      | Some b =>
          match mapiM_from (S n) f l' with
          | Some bs => Some (b :: bs)
          | None => None
          end
      | None => None
      end
  end.

Section Getters.

(** [Math.cos] *)
Variable cos : Q -> Q.

Definition defaultProgress (progress : option Q) : Q :=
  match progress with Some p => p | None => 0 end.

(** [None]: the [TypeError] of reading a member of [null] or [undefined]. *)
Definition getVertices (f : t) (progress : option Q) : option (list (Q * Q * Q)) :=
  let progress := defaultProgress progress in
  match type f with
  | GROW =>
      match end_ f with
      | Some e =>
          Some (Face.getVertices e
                  (Some (Utils.mix (1 - cos (10 * progress * progress)) 1
                                   (Utils.smoothStep progress))))
      | None => None
      end
  | SHRINK =>
      match start f with
      | Some s => Some (Face.getVertices s (Some (1 - Utils.smoothStep (2 * progress))))
      | None => None
      end
  | TRANSITION =>
      match end_ f with
      | Some e =>
          let endVerts := Face.getVertices e None in
          match start f with
          | Some s =>
              mapiM_from 0
                (fun vert i =>
                   match nth_error endVerts i with
                   | Some ev => Some (Utils.mix3 vert ev (Utils.smoothStep progress))
                   | None => None
                   end)
                (Face.getVertices s None)
          | None => None
          end
      | None => None
      end
  | AO_ONLY =>
      match start f with
      | Some s => Some (Face.getVertices s None)
      | None => None
      end
  end.

End Getters.

Definition Z3_to_Q3 (v : Z * Z * Z) : Q * Q * Q :=
  let '(a, b, c) := v in (inject_Z a, inject_Z b, inject_Z c).

Definition getNorm (f : t) (progress : option Q) : option (Q * Q * Q) :=
  let progress := defaultProgress progress in
  match type f with
  | GROW =>
      match end_ f with
      | Some e => Some (Z3_to_Q3 (Face.getNorm e))
      | None => None
      end
  | SHRINK =>
      match start f with
      | Some s => Some (Z3_to_Q3 (Face.getNorm s))
      | None => None
      end
  | TRANSITION =>
      match start f, end_ f with
      | Some s, Some e =>
          Some (Utils.mix3 (Z3_to_Q3 (Face.getNorm s)) (Z3_to_Q3 (Face.getNorm e))
                           (Utils.smoothStep progress))
      | _, _ => None
      end
  | AO_ONLY =>
      match start f with
      | Some s => Some (Z3_to_Q3 (Face.getNorm s))
      | None => None
      end
  end.

Definition getIndices (f : t) (offset : Z) : option (list Z) :=
  match type f with
  | GROW =>
      match end_ f with
      | Some e => Some (Face.getIndices e offset)
      | None => None
      end
  | _ =>
      match start f with
      | Some s => Some (Face.getIndices s offset)
      | None => None
      end
  end.

Definition getAOs (f : t) (progress : option Q) : option Face.aos4 :=
  let progress := defaultProgress progress in
  let control := Utils.smoothStep progress in
  match type f with
  | GROW =>
      match end_ f with
      | Some e => Some (Utils.mix4 (1, 1, 1, 1) (Face.aos e) control)
      | None => None
      end
  | SHRINK =>
      match start f with
      | Some s => Some (Utils.mix4 (Face.aos s) (1, 1, 1, 1) control)
      | None => None
      end
  | TRANSITION | AO_ONLY =>
      match start f, end_ f with
      | Some s, Some e => Some (Utils.mix4 (Face.aos s) (Face.aos e) control)
      | _, _ => None
      end
  end.

End AnimFace.

(** ** src/main.ts: the rule of the automaton and the data of a frame *)

Module Main.

(** [!current] *)
Definition not_ (v : jsval) : bool :=
match v with
| JNum n => n =? 0
| _ => true
end.

Definition rules : GridState.rule :=
fun current neighbours =>
  if (gt current 0 && (neighbours >=? 5) && (neighbours <=? 7))
     || (not_ current && (neighbours =? 1))
  then 1 else 0.

(** [Math.min((now - prev) / ANIM_DURATION, 1.0)]; the constant
    [ANIM_DURATION] is an argument. *)
Definition progress (now prev ANIM_DURATION : Q) : Q :=
Qmin ((now - prev) / ANIM_DURATION)%Q 1%Q.

(** [l.map(f).flat(1)] for a callback that may throw. *)
Fixpoint flatMapM {A B : Type} (f : A -> option (list B)) (l : list A)
  : option (list B) :=
match l with
| [] => Some []
| a :: l' =>
    match f a with
    | Some bs =>
        match flatMapM f l' with
        | Some rest => Some (bs ++ rest)
        | None => None
        end
    | None => None
    end
end.

(** [l.map((v, i) => f v i).flat()] for a callback that may throw. *)
Fixpoint flatMapiM_from {A B : Type} (n : nat) (f : A -> nat -> option (list B))
         (l : list A) : option (list B) :=
match l with
| [] => Some []
| a :: l' =>
    match f a n with
    | Some bs =>
        match flatMapiM_from (S n) f l' with
        | Some rest => Some (bs ++ rest)
        | None => None
        end
    | None => None
    end
end.

Definition list3 (v : Q * Q * Q) : list Q := let '(a, b, c) := v in [a; b; c].

Definition list4 (v : Face.aos4) : list Q := let '(a, b, c, d) := v in [a; b; c; d].

(** The entries [[v, normals[i], aos[i]].flat()] of one vertex: an index
    read past the end leaves an [undefined] entry ([None]). *)
Definition vertexEntries (normals : list (Q * Q * Q)) (aos : list Q)
           (v : Q * Q * Q) (i : nat) : list (option Q) :=
map Some (list3 v)
++ match nth_error normals i with
   | Some n => map Some (list3 n)
   | None => [None]
   end
++ [nth_error aos i].

(** The conversion of a number to an element of a [Uint16Array]. *)
Definition toUint16 (n : Z) : Z := n mod 65536.

(** What [render] hands to [Float32Array] and what it stores in the
    [Uint16Array]. *)
Record frame : Type := mkFrame {
  vertData : list (option Q);
  indices : list Z;
}.

(** The numbers [faces.map((face, i) => face.getIndices(i * 4)).flat()]. *)
Definition rawIndices (faces : list AnimFace.t) : option (list Z) :=
flatMapiM_from 0 (fun face i => AnimFace.getIndices face (Z.of_nat i * 4)) faces.

(** The data of a frame in [render], from the faces and the progress;
    [None] when a getter throws. *)
Definition frameData (cos : Q -> Q) (faces : list AnimFace.t) (progress : Q)
  : option frame :=
match flatMapM (fun face => AnimFace.getVertices cos face (Some progress)) faces with
| Some vertices =>
    match flatMapM (fun face =>
                      match AnimFace.getNorm face None with
                      | Some n => Some (repeat n 4)
                      | None => None
                      end) faces with
    | Some normals =>
        match flatMapM (fun face =>
                          match AnimFace.getAOs face (Some progress) with
                          | Some a => Some (list4 a)
                          | None => None
                          end) faces with
        | Some aos =>
            match rawIndices faces with
            | Some raw =>
                Some (mkFrame
                        (concat (AnimFace.mapi (vertexEntries normals aos) vertices))
                        (map toUint16 raw))
            | None => None
            end
        | None => None
        end
    | None => None
    end
| None => None
end.

End Main.

(** ** Vocabulary of the statements *)

(** The integers [lo], [lo + 1], ..., [hi - 1]. *)
Definition zrange (lo hi : Z) : list Z :=
  map (fun n => lo + Z.of_nat n) (seq 0 (Z.to_nat (hi - lo))).

(** The coordinate cuboid [[-X, X) x [-Y, Y) x [-Z, Z)] of the enumeration. *)
Definition inCuboid (d : GridDimensions.t) (x y z : Z) : bool :=
  (- GridDimensions.halfX d <=? x) && (x <? GridDimensions.halfX d) &&
  (- GridDimensions.halfY d <=? y) && (y <? GridDimensions.halfY d) &&
  (- GridDimensions.halfZ d <=? z) && (z <? GridDimensions.halfZ d).

(** The cuboid in nested order: outermost x, then y, then z. *)
Definition cuboid (d : GridDimensions.t) : list (Z * Z * Z) :=
  flat_map (fun x =>
    flat_map (fun y =>
      map (fun z => (x, y, z))
          (zrange (- GridDimensions.halfZ d) (GridDimensions.halfZ d)))
      (zrange (- GridDimensions.halfY d) (GridDimensions.halfY d)))
    (zrange (- GridDimensions.halfX d) (GridDimensions.halfX d)).

Definition positive (d : GridDimensions.t) : Prop :=
  0 < GridDimensions.halfX d /\ 0 < GridDimensions.halfY d /\ 0 < GridDimensions.halfZ d.

(** One row, and one slab, of the cuboid. *)
Definition row (d : GridDimensions.t) (x y : Z) (lo : Z) : list (Z * Z * Z) :=
  map (fun z => (x, y, z)) (zrange lo (GridDimensions.halfZ d)).

Definition slab (d : GridDimensions.t) (x : Z) (lo : Z) : list (Z * Z * Z) :=
  flat_map (fun y => row d x y (- GridDimensions.halfZ d))
           (zrange lo (GridDimensions.halfY d)).

(** What the enumeration still has to produce from the iterator state [s]. *)
Definition remaining (d : GridDimensions.t) (s : GridDimensions.iter) : list (Z * Z * Z) :=
  row d (GridDimensions.i s) (GridDimensions.j s) (GridDimensions.k s)
  ++ slab d (GridDimensions.i s) (GridDimensions.j s + 1)
  ++ flat_map (fun x => slab d x (- GridDimensions.halfY d))
              (zrange (GridDimensions.i s + 1) (GridDimensions.halfX d)).

(** The cube of side 3 around a position, in the order of the loops of
    [neighbourPop], and the same without its centre (the 14th entry). *)
Definition cube27 (x y z : Z) : list (Z * Z * Z) :=
  flat_map (fun i =>
    flat_map (fun j => map (fun k => (i, j, k)) [z - 1; z; z + 1])
             [y - 1; y; y + 1])
    [x - 1; x; x + 1].

Definition neighbours26 (x y z : Z) : list (Z * Z * Z) :=
  firstn 13 (cube27 x y z) ++ skipn 14 (cube27 x y z).

Definition chebyshev (p q : Z * Z * Z) : Z :=
  let '(px, py, pz) := p in
  let '(qx, qy, qz) := q in
  Z.max (Z.max (Z.abs (px - qx)) (Z.abs (py - qy))) (Z.abs (pz - qz)).

Definition ind (b : bool) : Z := if b then 1 else 0.

(** How many positions of the list are live in the grid. *)
Definition countLive (g : CellGrid.t) (l : list (Z * Z * Z)) : Z :=
  Z.of_nat (length (filter (fun '(a, b, c) => CellGrid.isLive g a b c) l)).

(** The cell of coordinates [(x, y, z)] holds the live state and no other
    slot of the flat storage does. *)
Definition onlyLiveCell (g : CellGrid.t) (x y z : Z) : Prop :=
  forall n : Z,
    looseEqNum (get (CellGrid.cells g) n) (CellGrid.states g - 1) = true <->
    n = GridDimensions.indexOf (CellGrid.dims g) x y z.

(** The 2 x 2 x 2 grid whose only non-zero cell is the one of [(0, 0, 0)]. *)
Definition gridOrigin111 : CellGrid.t :=
  CellGrid.make (GridDimensions.make 1 1 1)
                (repeat (JNum 0) 7 ++ [JNum 1]) 2.

(** The position is a cell of the grid, a coordinate of its cuboid, and the
    cell holds the live state [states - 1]. *)
Definition liveCell (g : CellGrid.t) (x y z : Z) : bool :=
  inCuboid (CellGrid.dims g) x y z
  && looseEqNum (get (CellGrid.cells g) (GridDimensions.indexOf (CellGrid.dims g) x y z))
                (CellGrid.states g - 1).

(** How many positions of the list are live cells of the grid. *)
Definition countLiveCells (g : CellGrid.t) (l : list (Z * Z * Z)) : Z :=
  Z.of_nat (length (filter (fun '(a, b, c) => liveCell g a b c) l)).

Definition dims222 : GridDimensions.t := GridDimensions.make 2 2 2.

(** The 4 x 4 x 4 grid whose only non-zero cell is the one of
    [(0, 0, -2)], at index 40 of the flat storage. *)
Definition gridBottom222 : CellGrid.t :=
  CellGrid.make dims222 (repeat (JNum 0) 40 ++ [JNum 1] ++ repeat (JNum 0) 23) 2.

(** The statement "after [makeUpdated], the new cell at [(x, y, z)] is the
    rule's value and the core cell is 1 or 0", as a proposition. *)
Definition updatedCellsAre01 (old : GridState.t) (rules : GridState.rule) (x y z : Z)
  : Prop :=
  exists new,
    GridState.makeUpdated old rules = Some new /\
    GridState.oldGrid new = GridState.grid old /\
    let v := rules (CellGrid.getCell (GridState.grid old) x y z)
                   (CellGrid.neighbourPop (GridState.grid old) x y z) in
    CellGrid.getCell (GridState.grid new) x y z = JNum v /\
    CellGrid.getCell (GridState.core new) x y z =
      JNum (if (v >? 0) && CellGrid.isVisible (GridState.grid old) x y z then 1 else 0).

(** Concrete inputs used to run the code. *)
Definition dims111 : GridDimensions.t := GridDimensions.make 1 1 1.

Definition grid111 (cell : Z) (states : Z) : CellGrid.t :=
  CellGrid.make dims111 (repeat (JNum cell) 8) states.

Definition ruleZero : GridState.rule := fun _ _ => 0.

Definition ruleCount : GridState.rule := fun _ neighbours => neighbours.

(** [current + 1] on a number; the rule is only run on populated grids. *)
Definition ruleSucc : GridState.rule :=
  fun current _ => match current with JNum n => n + 1 | _ => 0 end.

Definition stateEmpty111 : GridState.t := GridState.makeFromGrid (grid111 0 2).

Definition stateFull111 : GridState.t := GridState.makeFromGrid (grid111 1 2).

(** [n] updates in sequence, the intermediate states discarded. *)
Fixpoint chainUpdates (rules : GridState.rule) (n : nat) (s : GridState.t)
  : option GridState.t :=
  match n with
  | O => Some s
  | S n' =>
      match GridState.makeUpdated s rules with
      | Some s' => chainUpdates rules n' s'
      | None => None
      end
  end.

(** The per-component linear mix of two AO tuples with mixing factor [t]. *)
Definition linearMix4 (a b : Face.aos4) (t : Q) : Face.aos4 :=
  let '(a0, a1, a2, a3) := a in
  let '(b0, b1, b2, b3) := b in
  (Utils.mix a0 b0 t, Utils.mix a1 b1 t, Utils.mix a2 b2 t, Utils.mix a3 b3 t).

(** The AO values of an animated face when the endpoints of its kind are
    mixed linearly with factor [t]. *)
Definition aosMixedBy (f : AnimFace.t) (t : Q) : option Face.aos4 :=
  match AnimFace.type f with
  | AnimFace.GROW =>
      option_map (fun e => linearMix4 (1, 1, 1, 1)%Q (Face.aos e) t) (AnimFace.end_ f)
  | AnimFace.SHRINK =>
      option_map (fun s => linearMix4 (Face.aos s) (1, 1, 1, 1)%Q t) (AnimFace.start f)
  | AnimFace.TRANSITION | AnimFace.AO_ONLY =>
      match AnimFace.start f, AnimFace.end_ f with
      | Some s, Some e => Some (linearMix4 (Face.aos s) (Face.aos e) t)
      | _, _ => None
      end
  end.

Definition aos4_eqb (a b : Face.aos4) : bool :=
  let '(a0, a1, a2, a3) := a in
  let '(b0, b1, b2, b3) := b in
  Qeq_bool a0 b0 && Qeq_bool a1 b1 && Qeq_bool a2 b2 && Qeq_bool a3 b3.

Definition option_aos4_eqb (a b : option Face.aos4) : bool :=
  match a, b with
  | Some a, Some b => aos4_eqb a b
  | None, None => true
  | _, _ => false
  end.

(** A growing face whose end face has all four AO values 1/2. *)
Definition growHalf : AnimFace.t :=
  AnimFace.makeGrowing (Face.make 0 0 0 Face.XNEG (1 # 2, 1 # 2, 1 # 2, 1 # 2)%Q).

(** The three orientations, the cell a side looks at, and the orientations
    that culling against a grid keeps for a cell. *)
Definition orientations : list Face.SIDE := [Face.XNEG; Face.YPOS; Face.ZNEG].

Definition outward (side : Face.SIDE) (x y z : Z) : Z * Z * Z :=
  match side with
  | Face.XNEG => (x - 1, y, z)
  | Face.YPOS => (x, y + 1, z)
  | Face.ZNEG => (x, y, z - 1)
  end.

Definition keptByCulling (cullGrid : CellGrid.t) (x y z : Z) : list Face.SIDE :=
  if CellGrid.isVisible cullGrid x y z
  then filter (fun side =>
                 let '(a, b, c) := outward side x y z in
                 negb (CellGrid.isVisible cullGrid a b c))
              orientations
  else [].

(** The face of a cell on a side, with the AO values of a grid. *)
Definition faceOf (aoGrid : CellGrid.t) (x y z : Z) (side : Face.SIDE) : Face.t :=
  Face.make x y z side (Face.faceAOs aoGrid x y z side).

(** The endpoints the animation type needs are there. *)
Definition endpointsPresent (f : AnimFace.t) : bool :=
  match AnimFace.type f with
  | AnimFace.GROW => match AnimFace.end_ f with Some _ => true | None => false end
  | AnimFace.SHRINK => match AnimFace.start f with Some _ => true | None => false end
  | AnimFace.TRANSITION | AnimFace.AO_ONLY =>
      match AnimFace.start f, AnimFace.end_ f with
      | Some _, Some _ => true
      | _, _ => false
      end
  end.

(** The one animated face of the cell [(0, 0, 0)] of the full 2 x 2 x 2
    grid taken as a transitionless state. *)
Definition animTop111 : AnimFace.t :=
  AnimFace.make (Some (faceOf (grid111 1 2) 0 0 0 Face.YPOS))
                (Some (faceOf (grid111 1 2) 0 0 0 Face.YPOS))
                AnimFace.AO_ONLY.

(** Equality of tuples of rationals, component by component. *)
Definition q3_eq (a b : Q * Q * Q) : Prop :=
  let '(a0, a1, a2) := a in
  let '(b0, b1, b2) := b in
  a0 == b0 /\ a1 == b1 /\ a2 == b2.

Definition aos4_eq (a b : Face.aos4) : Prop :=
  let '(a0, a1, a2, a3) := a in
  let '(b0, b1, b2, b3) := b in
  a0 == b0 /\ a1 == b1 /\ a2 == b2 /\ a3 == b3.

(** The four occlusion levels of a vertex. *)
Definition aoLevel (q : Q) : Prop :=
  q = (1 # 4)%Q \/ q = (1 # 2)%Q \/ q = (3 # 4)%Q \/ q = 1%Q.

Definition aos4_levels (a : Face.aos4) : Prop :=
  let '(a0, a1, a2, a3) := a in
  aoLevel a0 /\ aoLevel a1 /\ aoLevel a2 /\ aoLevel a3.

(** The side's outward neighbour of a cell is not visible in the grid. *)
Definition exposed (cullGrid : CellGrid.t) (x y z : Z) (side : Face.SIDE) : bool :=
  let '(a, b, c) := outward side x y z in
  negb (CellGrid.isVisible cullGrid a b c).

(** Lists of vertices equal component by component. *)
Definition verts_eq (l l' : list (Q * Q * Q)) : Prop := Forall2 q3_eq l l'.

Definition Z3_inject (v : Z * Z * Z) : Q * Q * Q :=
  let '(a, b, c) := v in (inject_Z a, inject_Z b, inject_Z c).

(** The AO tuples an animated face goes from and to: all-ones stands in for
    the face that is absent. *)
Definition aoEndpoints (f : AnimFace.t) : option (Face.aos4 * Face.aos4) :=
  match AnimFace.type f with
  | AnimFace.GROW =>
      option_map (fun e => ((1, 1, 1, 1)%Q, Face.aos e)) (AnimFace.end_ f)
  | AnimFace.SHRINK =>
      option_map (fun s => (Face.aos s, (1, 1, 1, 1)%Q)) (AnimFace.start f)
  | AnimFace.TRANSITION | AnimFace.AO_ONLY =>
      match AnimFace.start f, AnimFace.end_ f with
      | Some s, Some e => Some (Face.aos s, Face.aos e)
      | _, _ => None
      end
  end.

(** The voxel an animated face belongs to. *)
Definition voxelOf (f : AnimFace.t) : option (Z * Z * Z) :=
  match AnimFace.start f, AnimFace.end_ f with
  | Some s, _ => Some (Face.x s, Face.y s, Face.z s)
  | None, Some e => Some (Face.x e, Face.y e, Face.z e)
  | None, None => None
  end.

(** All the vertices are at the voxel position of the face. *)
Definition collapsed (face : Face.t) (verts : list (Q * Q * Q)) : Prop :=
  Forall (fun v => q3_eq v (Z3_inject (Face.x face, Face.y face, Face.z face))) verts.

(** The grid has its [8XYZ] slots and each holds a number (no hole). *)
Definition populated (g : CellGrid.t) : bool :=
  (CellGrid.size (CellGrid.dims g) =? Z.of_nat (length (CellGrid.cells g)))
  && forallb notNullish (CellGrid.cells g).

Ltac unfold_dims :=
  cbn [GridDimensions.halfX GridDimensions.halfY GridDimensions.halfZ
       GridDimensions.i GridDimensions.j GridDimensions.k] in *.

(** ** Arrays *)

Lemma get_set_same (a : array) (i : Z) (v : jsval) :
  0 <= i -> get (set a i v) i = v.
Proof.
  intros Hi. unfold get, set.
  destruct (i <? 0) eqn:E; [apply Z.ltb_lt in E; lia|].
  destruct (Z.to_nat i <? length a)%nat eqn:L.
  - apply Nat.ltb_lt in L.
    rewrite app_nth2; rewrite length_firstn; [|lia].
    replace (Z.to_nat i - Nat.min (Z.to_nat i) (length a))%nat with 0%nat by lia.
    reflexivity.
  - apply Nat.ltb_ge in L.
    rewrite app_nth2 by lia.
    rewrite app_nth2; rewrite repeat_length; [|lia].
    replace (Z.to_nat i - length a - (Z.to_nat i - length a))%nat with 0%nat by lia.
    reflexivity.
Qed.

Lemma get_set_other (a : array) (i j : Z) (v : jsval) :
  0 <= i -> i <> j -> get (set a i v) j = get a j.
Proof.
  intros Hi Hij. unfold get, set.
  destruct (j <? 0) eqn:Ej; [reflexivity|]. apply Z.ltb_ge in Ej.
  destruct (i <? 0) eqn:E; [reflexivity|].
  assert (Hn : Z.to_nat i <> Z.to_nat j) by lia.
  destruct (Z.to_nat i <? length a)%nat eqn:L.
  - apply Nat.ltb_lt in L.
    destruct (Nat.lt_ge_cases (Z.to_nat j) (Z.to_nat i)) as [Hlt|Hge].
    + rewrite app_nth1 by (rewrite length_firstn; lia).
      rewrite nth_firstn. apply Nat.ltb_lt in Hlt. rewrite Hlt. reflexivity.
    + rewrite app_nth2; rewrite length_firstn; [|lia].
      replace (Nat.min (Z.to_nat i) (length a)) with (Z.to_nat i) by lia.
      destruct (Z.to_nat j - Z.to_nat i)%nat as [|m] eqn:D; [lia|].
      change (nth (S m) (v :: skipn (S (Z.to_nat i)) a) JUndef)
        with (nth m (skipn (S (Z.to_nat i)) a) JUndef).
      rewrite nth_skipn. f_equal. lia.
  - apply Nat.ltb_ge in L.
    destruct (Nat.lt_ge_cases (Z.to_nat j) (length a)) as [Hlt|Hge].
    + rewrite app_nth1 by lia. reflexivity.
    + rewrite app_nth2 by lia.
      rewrite (nth_overflow a) by lia.
      destruct (Nat.lt_ge_cases (Z.to_nat j - length a) (Z.to_nat i - length a)) as [H1|H1].
      * rewrite app_nth1 by (rewrite repeat_length; lia).
        apply nth_repeat.
      * rewrite app_nth2 by (rewrite repeat_length; lia).
        rewrite repeat_length.
        destruct (Z.to_nat j - length a - (Z.to_nat i - length a))%nat as [|m] eqn:D; [lia|].
        simpl. destruct m; reflexivity.
Qed.

Lemma length_set_inside (a : array) (i : Z) (v : jsval) :
  0 <= i < Z.of_nat (length a) -> length (set a i v) = length a.
Proof.
  intros Hi. unfold set.
  destruct (i <? 0) eqn:E; [reflexivity|].
  destruct (Z.to_nat i <? length a)%nat eqn:L.
  - apply Nat.ltb_lt in L.
    rewrite length_app, length_firstn. cbn [length]. rewrite length_skipn. lia.
  - apply Nat.ltb_ge in L. lia.
Qed.

Lemma Array_new_some (n : Z) :
  0 <= n -> Array_new n = Some (repeat JUndef (Z.to_nat n)).
Proof.
  intros Hn. unfold Array_new.
  destruct (n <? 0) eqn:E; [apply Z.ltb_lt in E; lia|reflexivity].
Qed.

Lemma get_repeat_undef (n : nat) (i : Z) : get (repeat JUndef n) i = JUndef.
Proof.
  unfold get. destruct (i <? 0); [reflexivity|].
  destruct (Nat.lt_ge_cases (Z.to_nat i) n).
  - apply nth_repeat_lt; assumption.
  - apply nth_overflow. rewrite repeat_length. assumption.
Qed.

(** ** GridDimensions: bounds, indices, enumeration *)

Lemma inCuboid_iff (d : GridDimensions.t) (x y z : Z) :
  inCuboid d x y z = true <->
  (- GridDimensions.halfX d <= x < GridDimensions.halfX d /\
   - GridDimensions.halfY d <= y < GridDimensions.halfY d /\
   - GridDimensions.halfZ d <= z < GridDimensions.halfZ d).
Proof.
  unfold inCuboid.
  rewrite !andb_true_iff, !Z.leb_le, !Z.ltb_lt. lia.
Qed.

Lemma inBounds_iff (d : GridDimensions.t) (x y z : Z) :
  GridDimensions.inBounds d x y z = true <->
  (- GridDimensions.halfX d <= x < GridDimensions.halfX d /\
   - GridDimensions.halfY d <= y < GridDimensions.halfY d /\
   - GridDimensions.halfZ d <= z <= GridDimensions.halfZ d).
Proof.
  unfold GridDimensions.inBounds.
  rewrite !andb_true_iff, !Z.geb_le, !Z.leb_le, !Z.ltb_lt. lia.
Qed.

Lemma inCuboid_inBounds (d : GridDimensions.t) (x y z : Z) :
  inCuboid d x y z = true -> GridDimensions.inBounds d x y z = true.
Proof. rewrite inCuboid_iff, inBounds_iff. lia. Qed.

Lemma inCuboid_positive (d : GridDimensions.t) (x y z : Z) :
  inCuboid d x y z = true -> positive d.
Proof. rewrite inCuboid_iff. unfold positive. lia. Qed.

(** Digits in mixed radix determine the number. *)
Lemma radix_unique (m q c q' c' : Z) :
  0 <= c < m -> 0 <= c' < m -> q * m + c = q' * m + c' -> q = q' /\ c = c'.
Proof.
  intros Hc Hc' E.
  assert (q = q') by nia.
  subst q'. lia.
Qed.

Lemma indexOf_radix (d : GridDimensions.t) (x y z : Z) :
  GridDimensions.indexOf d x y z =
  ((x + GridDimensions.halfX d) * (2 * GridDimensions.halfY d) + (y + GridDimensions.halfY d))
  * (2 * GridDimensions.halfZ d) + (z + GridDimensions.halfZ d).
Proof. unfold GridDimensions.indexOf. ring. Qed.

Lemma indexOf_cuboid_range (d : GridDimensions.t) (x y z : Z) :
  inCuboid d x y z = true ->
  0 <= GridDimensions.indexOf d x y z < CellGrid.size d.
Proof.
  rewrite inCuboid_iff, indexOf_radix. unfold CellGrid.size.
  destruct d as [X Y Z0]; unfold_dims. intros (Hx & Hy & Hz).
  assert (H1 : 0 <= (x + X) * (2 * Y)) by (apply Z.mul_nonneg_nonneg; lia).
  assert (H2 : (x + X) * (2 * Y) <= (2 * X - 1) * (2 * Y))
    by (apply Z.mul_le_mono_nonneg_r; lia).
  set (q := (x + X) * (2 * Y) + (y + Y)) in *.
  assert (Hq : 0 <= q <= 4 * X * Y - 1) by (unfold q; lia).
  assert (H3 : 0 <= q * (2 * Z0)) by (apply Z.mul_nonneg_nonneg; lia).
  assert (H4 : q * (2 * Z0) <= (4 * X * Y - 1) * (2 * Z0))
    by (apply Z.mul_le_mono_nonneg_r; lia).
  replace (8 * X * Y * Z0) with ((4 * X * Y - 1) * (2 * Z0) + 2 * Z0) by ring.
  lia.
Qed.

Lemma indexOf_cuboid_inj (d : GridDimensions.t) (x y z x' y' z' : Z) :
  inCuboid d x y z = true -> inCuboid d x' y' z' = true ->
  GridDimensions.indexOf d x y z = GridDimensions.indexOf d x' y' z' ->
  (x, y, z) = (x', y', z').
Proof.
  rewrite !inCuboid_iff, !indexOf_radix.
  destruct d as [X Y Z0]; unfold_dims. intros (Hx & Hy & Hz) (Hx' & Hy' & Hz') E.
  apply radix_unique in E; [|lia|lia]. destruct E as [E Ez].
  apply radix_unique in E; [|lia|lia]. destruct E as [Ex Ey].
  f_equal; [f_equal|]; lia.
Qed.

(** On the cuboid [indexOf] reaches every index of the flat storage. *)
Lemma indexOf_cuboid_surj (d : GridDimensions.t) (n : Z) :
  positive d -> 0 <= n < CellGrid.size d ->
  exists x y z, inCuboid d x y z = true /\ GridDimensions.indexOf d x y z = n.
Proof.
  intros (HX & HY & HZ) Hn. unfold CellGrid.size in Hn.
  destruct d as [X Y Z0]; unfold_dims.
  set (q := n / (2 * Z0)). set (c := n mod (2 * Z0)).
  set (a := q / (2 * Y)). set (b := q mod (2 * Y)).
  assert (En : n = q * (2 * Z0) + c)
    by (unfold q, c; rewrite Z.mul_comm; apply Z.div_mod; lia).
  assert (Eq : q = a * (2 * Y) + b)
    by (unfold a, b; rewrite Z.mul_comm; apply Z.div_mod; lia).
  assert (Hc : 0 <= c < 2 * Z0) by (apply Z.mod_pos_bound; lia).
  assert (Hb : 0 <= b < 2 * Y) by (apply Z.mod_pos_bound; lia).
  assert (Hq : 0 <= q < 4 * X * Y).
  { split; [apply Z.div_pos; lia|]. apply Z.div_lt_upper_bound; [lia|].
    replace (2 * Z0 * (4 * X * Y)) with (8 * X * Y * Z0) by ring. lia. }
  assert (Ha : 0 <= a < 2 * X).
  { split; [apply Z.div_pos; lia|]. apply Z.div_lt_upper_bound; [lia|].
    replace (2 * Y * (2 * X)) with (4 * X * Y) by ring. lia. }
  exists (a - X), (b - Y), (c - Z0). split.
  - apply inCuboid_iff. unfold_dims. lia.
  - rewrite indexOf_radix. unfold_dims.
    replace (a - X + X) with a by ring. replace (b - Y + Y) with b by ring.
    replace (c - Z0 + Z0) with c by ring. rewrite <- Eq. symmetry. exact En.
Qed.

Lemma zrange_nil (lo hi : Z) : hi <= lo -> zrange lo hi = [].
Proof.
  intros H. unfold zrange. replace (Z.to_nat (hi - lo)) with 0%nat by lia. reflexivity.
Qed.

Lemma zrange_cons (lo hi : Z) : lo < hi -> zrange lo hi = lo :: zrange (lo + 1) hi.
Proof.
  intros H. unfold zrange.
  replace (Z.to_nat (hi - lo)) with (S (Z.to_nat (hi - (lo + 1)))) by lia.
  cbn [seq map]. f_equal; [lia|].
  rewrite <- seq_shift, map_map.
  apply map_ext. intros n. lia.
Qed.

Lemma In_zrange (lo hi x : Z) : In x (zrange lo hi) <-> lo <= x < hi.
Proof.
  unfold zrange. rewrite in_map_iff. split.
  - intros (n & <- & Hn). apply in_seq in Hn. lia.
  - intros H. exists (Z.to_nat (x - lo)). split; [lia|]. apply in_seq. lia.
Qed.

Lemma In_cuboid (d : GridDimensions.t) (x y z : Z) :
  In (x, y, z) (cuboid d) <-> inCuboid d x y z = true.
Proof.
  rewrite inCuboid_iff. unfold cuboid. rewrite in_flat_map. split.
  - intros (x0 & Hx & H). apply in_flat_map in H. destruct H as (y0 & Hy & H).
    apply in_map_iff in H. destruct H as (z0 & E & Hz).
    inversion E; subst. rewrite In_zrange in Hx, Hy, Hz. lia.
  - intros (Hx & Hy & Hz). exists x. split; [apply In_zrange; lia|].
    apply in_flat_map. exists y. split; [apply In_zrange; lia|].
    apply in_map_iff. exists z. split; [reflexivity|apply In_zrange; lia].
Qed.

Lemma lex_decrease (pz rk inner rk' inner' : Z) :
  1 <= pz -> 0 <= rk' -> 0 <= inner' ->
  (rk' < rk /\ inner' <= inner) \/ (0 <= rk /\ rk' < pz /\ inner' < inner) ->
  0 <= rk' + pz * inner' < rk + pz * inner.
Proof. intros Hpz Hrk Hin [[H1 H2]|(H0 & H1 & H2)]; nia. Qed.

(** Each call of [next()] that is not [done] lowers the measure: the
    [for ... of] loop over any dimensions ends. *)
Lemma measure_decreases (d : GridDimensions.t) (s s' : GridDimensions.iter)
      (v : Z * Z * Z) :
  GridDimensions.next d s = (false, v, s') ->
  0 <= GridDimensions.measure d s' < GridDimensions.measure d s.
Proof.
  unfold GridDimensions.next, GridDimensions.measure.
  destruct d as [X Y Z0], s as [i j k]; unfold_dims.
  destruct (k >=? Z0) eqn:Ek; destruct (_ >=? Y) eqn:Ej;
    intros E; inversion E as [[Ei Ev Es]]; clear E Ev; subst s';
    unfold_dims;
    rewrite ?Z.geb_leb in *;
    repeat match goal with
           | H : (_ <=? _) = true |- _ => apply Z.leb_le in H
           | H : (_ <=? _) = false |- _ => apply Z.leb_gt in H
           end;
    (apply lex_decrease;
     [ lia | lia
     | apply Z.add_nonneg_nonneg; [lia | apply Z.mul_nonneg_nonneg; lia]
     | ]).
  - right. split; [lia|]. split; [lia|].
    replace (Z.max 0 (X - i)) with (Z.max 0 (X - (i + 1)) + 1) by lia.
    rewrite Z.mul_add_distr_l. lia.
  - right. split; [lia|]. split; [lia|]. lia.
  - left. split; [lia|].
    replace (Z.max 0 (X - i)) with (Z.max 0 (X - (i + 1)) + 1) by lia.
    rewrite Z.mul_add_distr_l. lia.
  - left. split; [lia|]. lia.
Qed.

Lemma measure_nonneg (d : GridDimensions.t) (s : GridDimensions.iter) :
  0 <= GridDimensions.measure d s.
Proof.
  unfold GridDimensions.measure.
  apply Z.add_nonneg_nonneg; [lia|].
  apply Z.mul_nonneg_nonneg; [lia|].
  apply Z.add_nonneg_nonneg; [lia|].
  apply Z.mul_nonneg_nonneg; lia.
Qed.

(** Past the measure, more fuel changes nothing: [coords] is the whole
    enumeration for every dimensions. *)
Lemma forOf_fuel (d : GridDimensions.t) (f1 f2 : nat) (s : GridDimensions.iter) :
  GridDimensions.measure d s < Z.of_nat f1 ->
  GridDimensions.measure d s < Z.of_nat f2 ->
  GridDimensions.forOf f1 d s = GridDimensions.forOf f2 d s.
Proof.
  revert f2 s. induction f1 as [|f1 IH]; intros f2 s H1 H2.
  - pose proof (measure_nonneg d s). lia.
  - destruct f2 as [|f2]; [pose proof (measure_nonneg d s); lia|].
    cbn [GridDimensions.forOf].
    destruct (GridDimensions.next d s) as [[done v] s'] eqn:E.
    destruct done; [reflexivity|].
    apply measure_decreases in E.
    f_equal. apply IH; lia.
Qed.

Lemma cuboid_slabs (d : GridDimensions.t) :
  cuboid d = flat_map (fun x => slab d x (- GridDimensions.halfY d))
                      (zrange (- GridDimensions.halfX d) (GridDimensions.halfX d)).
Proof. reflexivity. Qed.

Lemma geb_true (a b : Z) : b <= a -> (a >=? b) = true.
Proof. intros H. rewrite Z.geb_leb. apply Z.leb_le. assumption. Qed.

Lemma geb_false (a b : Z) : a < b -> (a >=? b) = false.
Proof. intros H. rewrite Z.geb_leb. apply Z.leb_gt. assumption. Qed.

Lemma forOf_remaining (d : GridDimensions.t) (fuel : nat) (s : GridDimensions.iter) :
  positive d ->
  GridDimensions.i s < GridDimensions.halfX d ->
  - GridDimensions.halfY d <= GridDimensions.j s < GridDimensions.halfY d ->
  - GridDimensions.halfZ d <= GridDimensions.k s <= GridDimensions.halfZ d ->
  GridDimensions.measure d s < Z.of_nat fuel ->
  GridDimensions.forOf fuel d s = remaining d s.
Proof.
  intros Hpos.
  revert s. induction fuel as [|fuel IH]; intros s Hi Hj Hk Hm.
  - pose proof (measure_nonneg d s). lia.
  - cbn [GridDimensions.forOf].
    destruct (GridDimensions.next d s) as [[done v] s'] eqn:E.
    pose proof E as E0.
    unfold GridDimensions.next in E.
    destruct d as [X Y Z0], s as [i j k];
      unfold positive, remaining, slab, row in *; unfold_dims.
    destruct (Z_lt_le_dec k Z0) as [Ek|Ek];
      [|destruct (Z_lt_le_dec (j + 1) Y) as [Ej|Ej];
        [|destruct (Z_lt_le_dec (i + 1) X) as [Ex|Ex]]].
    + (* inside a row *)
      rewrite (geb_false k Z0), (geb_false j Y), (geb_false i X) in E by lia.
      inversion E; subst done v s'; clear E.
      apply measure_decreases in E0.
      rewrite IH; unfold_dims; try lia.
      rewrite (zrange_cons k Z0) by lia. reflexivity.
    + (* end of a row *)
      rewrite (geb_true k Z0), (geb_false (j + 1) Y), (geb_false i X) in E by lia.
      inversion E; subst done v s'; clear E.
      apply measure_decreases in E0.
      rewrite IH; unfold_dims; try lia.
      rewrite (zrange_nil k) by lia.
      rewrite (zrange_cons (j + 1) Y) by lia. cbn [flat_map map app].
      rewrite (zrange_cons (- Z0) Z0) by lia. cbn [map].
      rewrite <- !app_assoc. reflexivity.
    + (* end of a slab *)
      rewrite (geb_true k Z0), (geb_true (j + 1) Y), (geb_false (i + 1) X) in E by lia.
      inversion E; subst done v s'; clear E.
      apply measure_decreases in E0.
      rewrite IH; unfold_dims; try lia.
      rewrite (zrange_nil k) by lia. rewrite (zrange_nil (j + 1)) by lia.
      cbn [map flat_map app].
      rewrite (zrange_cons (i + 1) X) by lia. cbn [flat_map].
      rewrite (zrange_cons (- Y) Y) by lia. cbn [flat_map].
      rewrite (zrange_cons (- Z0) Z0) by lia. cbn [map].
      rewrite <- !app_assoc. reflexivity.
    + (* end of the cuboid *)
      rewrite (geb_true k Z0), (geb_true (j + 1) Y), (geb_true (i + 1) X) in E by lia.
      inversion E; subst done v s'; clear E.
      rewrite (zrange_nil k) by lia. rewrite (zrange_nil (j + 1)) by lia.
      rewrite (zrange_nil (i + 1)) by lia. reflexivity.
Qed.

(** For positive half-extents the enumeration is the cuboid, in nested order. *)
Lemma coords_cuboid (d : GridDimensions.t) :
  positive d -> GridDimensions.coords d = cuboid d.
Proof.
  intros Hpos. pose proof Hpos as (HX & HY & HZ). unfold GridDimensions.coords.
  rewrite forOf_remaining; [|assumption|..].
  - rewrite cuboid_slabs. unfold remaining, GridDimensions.iterator. unfold_dims.
    rewrite (zrange_cons (- GridDimensions.halfX d)) by lia. cbn [flat_map].
    unfold slab at 3.
    rewrite (zrange_cons (- GridDimensions.halfY d)) by lia. cbn [flat_map].
    rewrite <- !app_assoc. reflexivity.
  - unfold GridDimensions.iterator; unfold_dims; lia.
  - unfold GridDimensions.iterator; unfold_dims; lia.
  - unfold GridDimensions.iterator; unfold_dims; lia.
  - pose proof (measure_nonneg d (GridDimensions.iterator d)). lia.
Qed.

Lemma In_coords (d : GridDimensions.t) (x y z : Z) :
  positive d ->
  (In (x, y, z) (GridDimensions.coords d) <-> inCuboid d x y z = true).
Proof. intros H. rewrite coords_cuboid by assumption. apply In_cuboid. Qed.

(** C5, on the code: with the inclusive upper bound on [z], [inBounds]
    accepts the triple [(X-1, Y-1, Z)], whose index is [8XYZ], one past the
    flat storage, and it accepts both [(x, y, Z)] and [(x, y+1, -Z)], which
    share an index.  [indexOf] is therefore no bijection from the triples
    accepted by [inBounds] onto [[0, 8XYZ)]. *)
Theorem indexOf_inBounds_not_bijective (d : GridDimensions.t) :
  positive d ->
  let X := GridDimensions.halfX d in
  let Y := GridDimensions.halfY d in
  let Z0 := GridDimensions.halfZ d in
  GridDimensions.inBounds d (X - 1) (Y - 1) Z0 = true /\
  GridDimensions.indexOf d (X - 1) (Y - 1) Z0 = CellGrid.size d /\
  GridDimensions.inBounds d (- X) (- Y) Z0 = true /\
  GridDimensions.inBounds d (- X) (- Y + 1) (- Z0) = true /\
  (- X, - Y, Z0) <> (- X, - Y + 1, - Z0) /\
  GridDimensions.indexOf d (- X) (- Y) Z0 = GridDimensions.indexOf d (- X) (- Y + 1) (- Z0).
Proof.
  intros (HX & HY & HZ) X Y Z0. subst X Y Z0.
  rewrite !inBounds_iff. unfold GridDimensions.indexOf, CellGrid.size.
  repeat split; try lia; try ring.
  intros E. inversion E. lia.
Qed.

Lemma indexOf_inBounds_not_bijective_witness :
  GridDimensions.inBounds dims111 0 0 1 = true /\
  GridDimensions.indexOf dims111 0 0 1 = 8 /\
  GridDimensions.inBounds dims111 (-1) (-1) 1 = true /\
  GridDimensions.inBounds dims111 (-1) 0 (-1) = true /\
  (-1, -1, 1) <> (-1, 0, -1) /\
  GridDimensions.indexOf dims111 (-1) (-1) 1 = GridDimensions.indexOf dims111 (-1) 0 (-1).
Proof.
  apply (indexOf_inBounds_not_bijective dims111).
  unfold positive, dims111; simpl; lia.
Defined.

(** ** CellGrid: constructors *)

Lemma fill_repeat (n : nat) (u v : jsval) : fill (repeat u n) v = repeat v n.
Proof. unfold fill. induction n as [|n IH]; simpl; [reflexivity|]. f_equal. exact IH. Qed.

(** C6: [makeFromCells] yields a grid exactly when the array has length
    [8XYZ]; the grid then holds the dimensions, the very array and the states
    count it was given, so rebuilding a grid of the right length from its own
    dimensions, cells and states gives the grid back. *)
Theorem makeFromCells_length (d : GridDimensions.t) (cells : array) (states : option Z) :
  ((exists g, CellGrid.makeFromCells d cells states = Some g) <->
   Z.of_nat (length cells) = CellGrid.size d) /\
  (forall g, CellGrid.makeFromCells d cells states = Some g ->
             CellGrid.cells g = cells /\ CellGrid.dims g = d /\
             CellGrid.states g = CellGrid.default states 2) /\
  (forall g : CellGrid.t,
      Z.of_nat (length (CellGrid.cells g)) = CellGrid.size (CellGrid.dims g) ->
      CellGrid.makeFromCells (CellGrid.dims g) (CellGrid.cells g) (Some (CellGrid.states g))
      = Some g).
Proof.
  unfold CellGrid.makeFromCells. repeat split.
  - intros [g H]. destruct (_ =? _) eqn:E; [|discriminate].
    apply Z.eqb_eq in E. lia.
  - intros H. rewrite H, Z.eqb_refl. eexists; reflexivity.
  - destruct (_ =? _); [|discriminate]. inversion H. reflexivity.
  - destruct (_ =? _); [|discriminate]. inversion H. reflexivity.
  - destruct (_ =? _); [|discriminate]. inversion H. reflexivity.
  - intros g H. rewrite H, Z.eqb_refl. destruct g; reflexivity.
Qed.

Lemma makeFromCells_length_witness :
  CellGrid.makeFromCells dims111 (repeat (JNum 1) 8) (Some 3) = Some (grid111 1 3) /\
  CellGrid.cells (grid111 1 3) = repeat (JNum 1) 8.
Proof.
  assert (H : CellGrid.makeFromCells dims111 (repeat (JNum 1) 8) (Some 3)
              = Some (grid111 1 3)).
  { apply (proj2 (proj2 (makeFromCells_length dims111 [] None)) (grid111 1 3)).
    reflexivity. }
  split; [exact H|].
  apply (proj1 (proj2 (makeFromCells_length dims111 (repeat (JNum 1) 8) (Some 3)))
               (grid111 1 3) H).
Defined.

(** C8, on the code: [makeEmpty] fills [8XYZ] cells with 0, and [makeFull]
    fills them with the constant 1 whatever [states] is; with [states = 3]
    every cell of the full grid is 1 and none is [states - 1 = 2]. *)
Theorem makeFull_fills_with_one (d : GridDimensions.t) (states : option Z) :
  CellGrid.makeEmpty d states =
    (if CellGrid.size d <? 0 then None
     else Some (CellGrid.make d (repeat (JNum 0) (Z.to_nat (CellGrid.size d)))
                              (CellGrid.default states 2))) /\
  CellGrid.makeFull d states =
    (if CellGrid.size d <? 0 then None
     else Some (CellGrid.make d (repeat (JNum 1) (Z.to_nat (CellGrid.size d)))
                              (CellGrid.default states 2))) /\
  CellGrid.makeFull dims111 (Some 3) = Some (grid111 1 3) /\
  grid111 1 3 <> grid111 (3 - 1) 3.
Proof.
  unfold CellGrid.makeEmpty, CellGrid.makeFull, Array_new.
  destruct (CellGrid.size d <? 0); rewrite ?fill_repeat;
    repeat split; try reflexivity; discriminate.
Qed.

Lemma get_Array_from_length (n : Z) (f : nat -> jsval) (i : Z) :
  get (Array_from_length n f) i =
  if (0 <=? i) && (i <? n) then f (Z.to_nat i) else JUndef.
Proof.
  unfold get, Array_from_length.
  destruct (i <? 0) eqn:E.
  - apply Z.ltb_lt in E. destruct (0 <=? i) eqn:E0; [apply Z.leb_le in E0; lia|reflexivity].
  - apply Z.ltb_ge in E. destruct (0 <=? i) eqn:E0; [|apply Z.leb_gt in E0; lia].
    cbn [andb]. destruct (i <? n) eqn:E1.
    + apply Z.ltb_lt in E1.
      rewrite (nth_indep _ JUndef (f 0%nat)) by (rewrite length_map, length_seq; lia).
      rewrite map_nth, seq_nth by lia. reflexivity.
    + apply Z.ltb_ge in E1. apply nth_overflow. rewrite length_map, length_seq. lia.
Qed.

(** C9: the grid of [makeRandom] has [states = 2] whatever [states] it was
    asked for; its [8XYZ] cells are [states - 1] where the draw fell below
    [prob] and 0 elsewhere; so for [states > 2] no coordinate is live in it. *)
Theorem makeRandom_states_default
        (d : GridDimensions.t) (prob : option Q) (states : option Z) (random : nat -> Q) :
  let g := CellGrid.makeRandom d prob states random in
  let s := CellGrid.default states 2 in
  let p := match prob with Some p => p | None => (1 # 2)%Q end in
  CellGrid.states g = 2 /\
  length (CellGrid.cells g) = Z.to_nat (CellGrid.size d) /\
  (forall n, (n < Z.to_nat (CellGrid.size d))%nat ->
             nth n (CellGrid.cells g) JUndef =
             if Qlt_le_dec (random n) p then JNum (s - 1) else JNum 0) /\
  (2 < s -> forall x y z, CellGrid.isLive g x y z = false).
Proof.
  intros g s p. unfold g, CellGrid.makeRandom. fold s. fold p.
  cbn [CellGrid.new CellGrid.states CellGrid.cells].
  split; [reflexivity|]. split.
  { unfold Array_from_length. rewrite length_map, length_seq. reflexivity. }
  split.
  { intros n Hn. unfold Array_from_length.
    set (F := fun n => if Qlt_le_dec (random n) p then JNum (s - 1) else JNum 0).
    rewrite (nth_indep _ JUndef (F 0%nat)) by (rewrite length_map, length_seq; lia).
    rewrite (map_nth F), seq_nth by lia. reflexivity. }
  intros Hs x y z. unfold CellGrid.isLive, CellGrid.getCell.
  cbn [CellGrid.new CellGrid.states CellGrid.cells CellGrid.dims].
  destruct (GridDimensions.inBounds d x y z); [|reflexivity].
  rewrite get_Array_from_length.
  destruct ((0 <=? _) && _); [|reflexivity].
  cbv beta. destruct (Qlt_le_dec _ _); cbn [notNullish looseEqNum andb].
  - apply Z.eqb_neq. lia.
  - reflexivity.
Qed.

Lemma makeRandom_states_default_witness :
  CellGrid.states (CellGrid.makeRandom dims111 (Some 1%Q) (Some 3) (fun _ => 0%Q)) = 2 /\
  CellGrid.cells (CellGrid.makeRandom dims111 (Some 1%Q) (Some 3) (fun _ => 0%Q))
  = repeat (JNum 2) 8 /\
  CellGrid.isLive (CellGrid.makeRandom dims111 (Some 1%Q) (Some 3) (fun _ => 0%Q)) 0 0 0
  = false.
Proof.
  split; [reflexivity|]. split; [reflexivity|].
  apply (makeRandom_states_default dims111 (Some 1%Q) (Some 3) (fun _ => 0%Q)).
  simpl. lia.
Defined.

(** ** CellGrid: neighbour count *)

Lemma if_succ (b : bool) (c : Z) : (if b then c + 1 else c) = c + ind b.
Proof. destruct b; unfold ind; lia. Qed.

Lemma if_pred (b : bool) (c : Z) : (if b then c - 1 else c) = c - ind b.
Proof. destruct b; unfold ind; lia. Qed.

Lemma countLive_nil (g : CellGrid.t) : countLive g [] = 0.
Proof. reflexivity. Qed.

Lemma countLive_cons (g : CellGrid.t) (a b c : Z) (l : list (Z * Z * Z)) :
  countLive g ((a, b, c) :: l) = ind (CellGrid.isLive g a b c) + countLive g l.
Proof.
  unfold countLive. cbn [filter].
  destruct (CellGrid.isLive g a b c); unfold ind; cbn [length]; lia.
Qed.

Lemma countLive_app (g : CellGrid.t) (l1 l2 : list (Z * Z * Z)) :
  countLive g (l1 ++ l2) = countLive g l1 + countLive g l2.
Proof. unfold countLive. rewrite filter_app, length_app. lia. Qed.

Section CountingLoops.

Variable g : CellGrid.t.

Lemma loop_k (i j : Z) (lk : list Z) (c : Z) :
  fold_left (fun count k => if CellGrid.isLive g i j k then count + 1 else count) lk c
  = c + countLive g (map (fun k => (i, j, k)) lk).
Proof.
  revert c. induction lk as [|k lk IH]; intros c; cbn [fold_left map].
  - rewrite countLive_nil. lia.
  - rewrite IH, countLive_cons, if_succ. lia.
Qed.

Lemma loop_j (i : Z) (lj lk : list Z) (c : Z) :
  fold_left (fun count j =>
               fold_left (fun count k =>
                            if CellGrid.isLive g i j k then count + 1 else count)
                         lk count)
            lj c
  = c + countLive g (flat_map (fun j => map (fun k => (i, j, k)) lk) lj).
Proof.
  revert c. induction lj as [|j lj IH]; intros c; cbn [fold_left flat_map].
  - rewrite countLive_nil. lia.
  - rewrite IH, loop_k, countLive_app. lia.
Qed.

Lemma loop_i (li lj lk : list Z) (c : Z) :
  fold_left (fun count i =>
               fold_left (fun count j =>
                            fold_left (fun count k =>
                                         if CellGrid.isLive g i j k
                                         then count + 1 else count)
                                      lk count)
                         lj count)
            li c
  = c + countLive g (flat_map (fun i =>
                       flat_map (fun j => map (fun k => (i, j, k)) lk) lj) li).
Proof.
  revert c. induction li as [|i li IH]; intros c; cbn [fold_left flat_map].
  - rewrite countLive_nil. lia.
  - rewrite IH, loop_j, countLive_app. lia.
Qed.

End CountingLoops.

Lemma cube27_split (x y z : Z) :
  cube27 x y z = firstn 13 (cube27 x y z) ++ (x, y, z) :: skipn 14 (cube27 x y z).
Proof. reflexivity. Qed.

Lemma neighbourPop_countLive (g : CellGrid.t) (x y z : Z) :
  CellGrid.neighbourPop g x y z = countLive g (neighbours26 x y z).
Proof.
  unfold CellGrid.neighbourPop. rewrite loop_i, if_pred.
  fold (cube27 x y z). rewrite (cube27_split x y z) at 1.
  unfold neighbours26. rewrite !countLive_app, countLive_cons. lia.
Qed.

Lemma In_neighbours26 (x y z : Z) (p : Z * Z * Z) :
  In p (neighbours26 x y z) <-> chebyshev p (x, y, z) = 1.
Proof.
  destruct p as [[a b] c]. unfold neighbours26, cube27, chebyshev.
  cbn [flat_map map app firstn skipn In]. split.
  - intros H.
    repeat (destruct H as [H|H]; [inversion H; subst; lia|]).
    contradiction.
  - intros H.
    assert (Ha : a = x - 1 \/ a = x \/ a = x + 1) by lia.
    assert (Hb : b = y - 1 \/ b = y \/ b = y + 1) by lia.
    assert (Hc : c = z - 1 \/ c = z \/ c = z + 1) by lia.
    destruct Ha as [Ha|[Ha|Ha]], Hb as [Hb|[Hb|Hb]], Hc as [Hc|[Hc|Hc]];
      subst a b c; try lia; tauto.
Qed.

Lemma length_neighbours26 (x y z : Z) : length (neighbours26 x y z) = 26%nat.
Proof. reflexivity. Qed.

Lemma NoDup_neighbours26 (x y z : Z) : NoDup (neighbours26 x y z).
Proof.
  unfold neighbours26, cube27. cbn [flat_map map app firstn skipn].
  repeat (constructor;
          [cbn [In]; intros H;
           repeat (destruct H as [H|H]; [inversion H; lia|]); exact H|]).
  constructor.
Qed.

Lemma isLive_iff (g : CellGrid.t) (a b c : Z) :
  CellGrid.isLive g a b c = true <->
  GridDimensions.inBounds (CellGrid.dims g) a b c = true /\
  looseEqNum (get (CellGrid.cells g) (GridDimensions.indexOf (CellGrid.dims g) a b c))
             (CellGrid.states g - 1) = true.
Proof.
  unfold CellGrid.isLive, CellGrid.getCell.
  destruct (GridDimensions.inBounds (CellGrid.dims g) a b c).
  - destruct (get _ _); cbn [notNullish looseEqNum andb]; intuition congruence.
  - cbn. intuition congruence.
Qed.

Lemma isVisible_iff (g : CellGrid.t) (a b c : Z) :
  CellGrid.isVisible g a b c = true <->
  GridDimensions.inBounds (CellGrid.dims g) a b c = true /\
  gt (get (CellGrid.cells g) (GridDimensions.indexOf (CellGrid.dims g) a b c)) 0 = true.
Proof.
  unfold CellGrid.isVisible, CellGrid.getCell.
  destruct (GridDimensions.inBounds (CellGrid.dims g) a b c).
  - destruct (get _ _); cbn [notNullish gt andb]; intuition congruence.
  - cbn. intuition congruence.
Qed.

(** A position of the layer [z = Z], in bounds for [inBounds] only, reads the
    slot of [(x, y + 1, -Z)]: never the slot of a cell above the bottom layer. *)
Lemma indexOf_top_layer (d : GridDimensions.t) (a b x y z : Z) :
  positive d -> inCuboid d x y z = true -> - GridDimensions.halfZ d < z ->
  GridDimensions.indexOf d a b (GridDimensions.halfZ d) <> GridDimensions.indexOf d x y z.
Proof.
  intros (HX & HY & HZ) Hc Hz. apply inCuboid_iff in Hc.
  rewrite !indexOf_radix. destruct d as [X Y Z0]; unfold_dims. intros E.
  replace (((a + X) * (2 * Y) + (b + Y)) * (2 * Z0) + (Z0 + Z0))
    with (((a + X) * (2 * Y) + (b + Y) + 1) * (2 * Z0) + 0) in E by ring.
  apply radix_unique in E; lia.
Qed.

Lemma onlyLiveCell_isLive (g : CellGrid.t) (x y z a b c : Z) :
  positive (CellGrid.dims g) ->
  inCuboid (CellGrid.dims g) x y z = true ->
  - GridDimensions.halfZ (CellGrid.dims g) < z ->
  onlyLiveCell g x y z ->
  (CellGrid.isLive g a b c = true <-> (a, b, c) = (x, y, z)).
Proof.
  intros Hpos Hc Hz Honly. rewrite isLive_iff, (Honly _). split.
  - intros [Hb E]. apply inBounds_iff in Hb.
    destruct (Z.eq_dec c (GridDimensions.halfZ (CellGrid.dims g))) as [->|Hne].
    + exfalso. revert E. apply indexOf_top_layer; assumption.
    + apply (indexOf_cuboid_inj (CellGrid.dims g));
        [apply inCuboid_iff; lia|assumption|assumption].
  - intros E. inversion E; subst. split; [apply inCuboid_inBounds; assumption|reflexivity].
Qed.

Lemma countLive_none (g : CellGrid.t) (l : list (Z * Z * Z)) :
  (forall a b c, In (a, b, c) l -> CellGrid.isLive g a b c = false) ->
  countLive g l = 0.
Proof.
  induction l as [|[[a b] c] l IH]; intros H; [reflexivity|].
  rewrite countLive_cons, IH, (H a b c); [reflexivity|left; reflexivity|].
  intros a' b' c' Hin. apply H. right. assumption.
Qed.

Lemma countLive_one (g : CellGrid.t) (l : list (Z * Z * Z)) (p : Z * Z * Z) :
  NoDup l -> In p l ->
  (forall a b c, In (a, b, c) l -> (CellGrid.isLive g a b c = true <-> (a, b, c) = p)) ->
  countLive g l = 1.
Proof.
  induction l as [|[[a b] c] l IH]; intros Hnd Hin H; [contradiction|].
  inversion Hnd as [|? ? Hnotin Hnd']; subst.
  rewrite countLive_cons. destruct Hin as [<-|Hin].
  - rewrite (proj2 (H a b c (or_introl eq_refl)) eq_refl).
    rewrite countLive_none; [reflexivity|].
    intros a' b' c' Hin'. destruct (CellGrid.isLive g a' b' c') eqn:E; [|reflexivity].
    apply (H a' b' c' (or_intror Hin')) in E. congruence.
  - rewrite IH; try assumption.
    + destruct (CellGrid.isLive g a b c) eqn:E; [|reflexivity].
      apply (H a b c (or_introl eq_refl)) in E. congruence.
    + intros a' b' c' Hin'. apply H. right. assumption.
Qed.

Lemma chebyshev_sym (p q : Z * Z * Z) : chebyshev p q = chebyshev q p.
Proof. destruct p as [[a b] c], q as [[a' b'] c']. unfold chebyshev. lia. Qed.

(** In terms of the code's own [isLive] and [inBounds]: [neighbourPop]
    is the number of live positions among the 26
    positions at Chebyshev distance 1 (the centre is not one of them), and a
    position that [inBounds] rejects is never live.  When a cell of the
    cuboid above the bottom layer, such as the origin [(0, 0, 0)], is the
    only live cell, the count is 0 at that cell and 1 at each of its 26
    neighbour positions. *)
Theorem neighbourPop_chebyshev (g : CellGrid.t) (x y z : Z) :
  (forall p, In p (neighbours26 x y z) <-> chebyshev p (x, y, z) = 1) /\
  length (neighbours26 x y z) = 26%nat /\
  NoDup (neighbours26 x y z) /\
  CellGrid.neighbourPop g x y z = countLive g (neighbours26 x y z) /\
  (forall a b c, GridDimensions.inBounds (CellGrid.dims g) a b c = false ->
                 CellGrid.isLive g a b c = false) /\
  (positive (CellGrid.dims g) ->
   inCuboid (CellGrid.dims g) x y z = true ->
   - GridDimensions.halfZ (CellGrid.dims g) < z ->
   onlyLiveCell g x y z ->
   CellGrid.neighbourPop g x y z = 0 /\
   forall a b c, In (a, b, c) (neighbours26 x y z) -> CellGrid.neighbourPop g a b c = 1).
Proof.
  split; [apply In_neighbours26|].
  split; [apply length_neighbours26|].
  split; [apply NoDup_neighbours26|].
  split; [apply neighbourPop_countLive|].
  split.
  { intros a b c Hb. destruct (CellGrid.isLive g a b c) eqn:E; [|reflexivity].
    apply isLive_iff in E. destruct E as [E _]. congruence. }
  intros Hpos Hc Hz Honly. split.
  - rewrite neighbourPop_countLive. apply countLive_none.
    intros a b c Hin. destruct (CellGrid.isLive g a b c) eqn:E; [|reflexivity].
    apply (onlyLiveCell_isLive g x y z) in E; try assumption.
    apply In_neighbours26 in Hin. rewrite E in Hin.
    unfold chebyshev in Hin. lia.
  - intros a b c Hin. rewrite neighbourPop_countLive.
    apply (countLive_one g _ (x, y, z)).
    + apply NoDup_neighbours26.
    + apply In_neighbours26. rewrite chebyshev_sym. apply In_neighbours26. assumption.
    + intros a' b' c' _. apply onlyLiveCell_isLive; assumption.
Qed.

Lemma onlyLiveCell_gridOrigin111 : onlyLiveCell gridOrigin111 0 0 0.
Proof.
  intros n. change (GridDimensions.indexOf (CellGrid.dims gridOrigin111) 0 0 0) with 7.
  unfold gridOrigin111, get. cbn [CellGrid.cells CellGrid.states].
  destruct (n <? 0) eqn:E.
  - apply Z.ltb_lt in E. cbn. split; [discriminate|lia].
  - apply Z.ltb_ge in E.
    destruct (Z.to_nat n) as [|[|[|[|[|[|[|[|m]]]]]]]] eqn:En; cbn;
      try (split; [discriminate|lia]).
    + split; [lia|reflexivity].
    + destruct m; cbn; split; try discriminate; lia.
Qed.

Lemma neighbourPop_chebyshev_witness :
  CellGrid.neighbourPop gridOrigin111 0 0 0 = 0 /\
  CellGrid.neighbourPop gridOrigin111 (-1) (-1) (-1) = 1 /\
  CellGrid.neighbourPop gridOrigin111 0 (-1) 1 = 1.
Proof.
  destruct (neighbourPop_chebyshev gridOrigin111 0 0 0) as (_ & _ & _ & _ & _ & H).
  destruct H as [H0 H1].
  - unfold positive; cbn; lia.
  - reflexivity.
  - cbn; lia.
  - exact onlyLiveCell_gridOrigin111.
  - split; [exact H0|]. split; apply H1; cbn; tauto.
Defined.

(** The positions of the layer [z = Z] are in bounds for [inBounds] and read
    slots of the bottom layer: in the full 2 x 2 x 2 grid, where each cell
    has 7 neighbour cells, the count at [(0, 0, 0)] is 10. *)
Lemma neighbourPop_full111 :
  CellGrid.neighbourPop (grid111 1 2) 0 0 0 = 10 /\
  CellGrid.neighbourPop (grid111 1 2) 0 0 (-1) = 7 /\
  CellGrid.isLive (grid111 1 2) (-1) (-1) 1 = true.
Proof. repeat split. Qed.

(** C2, on the code: [neighbourPop] counts positions outside the grid.  The
    layer [z = Z] passes [inBounds] and reads the slots of the bottom layer,
    so in the full 2 x 2 x 2 grid the count at [(0, 0, 0)] is 10 where only
    7 of the 26 neighbour positions are cells, all live; and in a
    4 x 4 x 4 grid whose only live cell is [(0, 0, -2)] the count at
    [(0, -1, 1)] is 1, through the position [(0, -1, 2)] outside the cuboid,
    although no neighbour position is a live cell and the live cell is at
    Chebyshev distance 3. *)
Theorem neighbourPop_counts_outside_grid :
  CellGrid.neighbourPop (grid111 1 2) 0 0 0 = 10 /\
  countLiveCells (grid111 1 2) (neighbours26 0 0 0) = 7 /\
  liveCell gridBottom222 0 0 (-2) = true /\
  countLiveCells gridBottom222 (cuboid dims222) = 1 /\
  chebyshev (0, 0, -2) (0, -1, 1) = 3 /\
  CellGrid.neighbourPop gridBottom222 0 (-1) 1 = 1 /\
  countLiveCells gridBottom222 (neighbours26 0 (-1) 1) = 0 /\
  In (0, -1, 2) (neighbours26 0 (-1) 1) /\
  GridDimensions.inBounds dims222 0 (-1) 2 = true /\
  inCuboid dims222 0 (-1) 2 = false /\
  CellGrid.isLive gridBottom222 0 (-1) 2 = true.
Proof.
  repeat split; try reflexivity.
  cbn. tauto.
Qed.

(** ** GridState: one update *)

Lemma coord_eq_dec (p q : Z * Z * Z) : {p = q} + {p <> q}.
Proof. repeat decide equality. Defined.

Section UpdateLoop.

Variable oldGrid : CellGrid.t.
Variable rules : GridState.rule.

Let d := CellGrid.dims oldGrid.
Let index := GridDimensions.indexOf d.
Let value (x y z : Z) : Z :=
  rules (CellGrid.getCell oldGrid x y z) (CellGrid.neighbourPop oldGrid x y z).
Let inCore (x y z : Z) : bool :=
  (value x y z >? 0) && CellGrid.isVisible oldGrid x y z.

Lemma updateCell_eq (newCells newCore : array) (x y z : Z) :
  0 <= index x y z ->
  GridState.updateCell oldGrid rules (newCells, newCore) (x, y, z) =
  (set newCells (index x y z) (JNum (value x y z)),
   if inCore x y z then set newCore (index x y z) (JNum 1) else newCore).
Proof.
  intros Hi. unfold GridState.updateCell. fold d. fold index. fold (value x y z).
  rewrite get_set_same by assumption. cbn [gt]. fold (inCore x y z).
  destruct (inCore x y z); reflexivity.
Qed.

(** The loop invariant: the slots of the coordinates visited hold their
    final values, the others are untouched, and no array grows. *)
Lemma fold_updateCell (l : list (Z * Z * Z)) (newCells newCore : array) :
  (forall x y z, In (x, y, z) l -> inCuboid d x y z = true) ->
  Z.of_nat (length newCells) = CellGrid.size d ->
  Z.of_nat (length newCore) = CellGrid.size d ->
  exists newCells' newCore',
    fold_left (GridState.updateCell oldGrid rules) l (newCells, newCore)
    = (newCells', newCore') /\
    length newCells' = length newCells /\
    length newCore' = length newCore /\
    forall x y z, inCuboid d x y z = true ->
      get newCells' (index x y z) =
        (if in_dec coord_eq_dec (x, y, z) l then JNum (value x y z)
         else get newCells (index x y z)) /\
      get newCore' (index x y z) =
        (if in_dec coord_eq_dec (x, y, z) l then
           if inCore x y z then JNum 1 else get newCore (index x y z)
         else get newCore (index x y z)).
Proof.
  revert newCells newCore.
  induction l as [|[[cx cy] cz] l IH]; intros newCells newCore Hl Hn Hc.
  - exists newCells, newCore. repeat split; reflexivity.
  - assert (Hin : inCuboid d cx cy cz = true) by (apply Hl; left; reflexivity).
    pose proof (indexOf_cuboid_range d cx cy cz Hin) as Hrange. fold index in Hrange.
    cbn [fold_left]. rewrite updateCell_eq by lia.
    set (cells1 := set newCells (index cx cy cz) (JNum (value cx cy cz))).
    set (core1 := if inCore cx cy cz
                  then set newCore (index cx cy cz) (JNum 1) else newCore).
    assert (L1 : length cells1 = length newCells)
      by (apply length_set_inside; lia).
    assert (L2 : length core1 = length newCore).
    { unfold core1. destruct (inCore cx cy cz); [|reflexivity].
      apply length_set_inside; lia. }
    destruct (IH cells1 core1) as (cells' & core' & Hfold & Hl1 & Hl2 & Hget).
    { intros x y z H. apply Hl. right. assumption. }
    { lia. }
    { lia. }
    exists cells', core'. split; [exact Hfold|].
    split; [lia|]. split; [lia|].
    intros x y z Hxyz. destruct (Hget x y z Hxyz) as [G1 G2].
    rewrite G1, G2. clear G1 G2.
    destruct (coord_eq_dec (cx, cy, cz) (x, y, z)) as [E|Hne].
    + inversion E; subst x y z.
      assert (S1 : get cells1 (index cx cy cz) = JNum (value cx cy cz))
        by (apply get_set_same; lia).
      assert (S2 : get core1 (index cx cy cz) =
                   if inCore cx cy cz then JNum 1 else get newCore (index cx cy cz)).
      { unfold core1. destruct (inCore cx cy cz); [apply get_set_same; lia|reflexivity]. }
      rewrite S1, S2.
      destruct (in_dec coord_eq_dec (cx, cy, cz) ((cx, cy, cz) :: l)) as [_|Hn'];
        [|exfalso; apply Hn'; left; reflexivity].
      destruct (in_dec coord_eq_dec (cx, cy, cz) l);
        destruct (inCore cx cy cz); split; reflexivity.
    + assert (Hidx : index cx cy cz <> index x y z).
      { intros E. apply Hne. apply (indexOf_cuboid_inj d); assumption. }
      assert (S1 : get cells1 (index x y z) = get newCells (index x y z))
        by (apply get_set_other; lia).
      assert (S2 : get core1 (index x y z) = get newCore (index x y z)).
      { unfold core1. destruct (inCore cx cy cz); [apply get_set_other; lia|reflexivity]. }
      rewrite S1, S2.
      destruct (in_dec coord_eq_dec (x, y, z) l) as [Hinl|Hnotl];
        destruct (in_dec coord_eq_dec (x, y, z) ((cx, cy, cz) :: l)) as [Hin'|Hn'];
        try (split; reflexivity).
      * exfalso. apply Hn'. right. assumption.
      * exfalso. destruct Hin' as [E|Hi']; [congruence|contradiction].
Qed.

End UpdateLoop.

(** For positive half-extents [makeUpdated] returns a state: no array
    constructor fails and both arrays keep the length [8XYZ]. *)
Lemma makeUpdated_returns (old : GridState.t) (rules : GridState.rule) :
  positive (CellGrid.dims (GridState.grid old)) ->
  exists newCells newCore,
    fold_left (GridState.updateCell (GridState.grid old) rules)
              (cuboid (CellGrid.dims (GridState.grid old)))
              (repeat JUndef (Z.to_nat (CellGrid.size (CellGrid.dims (GridState.grid old)))),
               repeat JUndef (Z.to_nat (CellGrid.size (CellGrid.dims (GridState.grid old)))))
    = (newCells, newCore) /\
    GridState.makeUpdated old rules =
    Some (GridState.make
            (CellGrid.make (CellGrid.dims (GridState.grid old)) newCells
                           (CellGrid.states (GridState.grid old)))
            (GridState.grid old)
            (CellGrid.make (CellGrid.dims (GridState.grid old)) newCore 2)).
Proof.
  intros Hpos.
  set (g := GridState.grid old) in *. set (d := CellGrid.dims g) in *.
  assert (Hsize : 0 <= CellGrid.size d).
  { destruct Hpos as (HX & HY & HZ). unfold CellGrid.size.
    repeat apply Z.mul_nonneg_nonneg; lia. }
  assert (Hlen : Z.of_nat (length (repeat JUndef (Z.to_nat (CellGrid.size d))))
                 = CellGrid.size d) by (rewrite repeat_length; lia).
  destruct (fold_updateCell g rules (cuboid d) _ _
              (fun x y z H => proj1 (In_cuboid d x y z) H) Hlen Hlen)
    as (newCells & newCore & Hfold & L1 & L2 & _).
  exists newCells, newCore. split; [exact Hfold|].
  unfold GridState.makeUpdated. fold g. fold d.
  rewrite Array_new_some by assumption.
  rewrite coords_cuboid by assumption. rewrite Hfold.
  unfold CellGrid.makeFromCells.
  rewrite L1, L2, Hlen, Z.eqb_refl. reflexivity.
Qed.

(** C1, as the code has it: for a coordinate of the cuboid
    [[-X, X) x [-Y, Y) x [-Z, Z)] that the dimensions enumerate,
    [makeUpdated] returns a state whose [oldGrid] is the old [grid], whose
    new cell there is the rule applied to the old cell and the old neighbour
    count, and whose core cell there is 1 when that value is positive and the
    old cell visible, and is left unset (it reads [undefined], so is not
    visible) otherwise. *)
Theorem makeUpdated_cells (old : GridState.t) (rules : GridState.rule) (x y z : Z) :
  inCuboid (CellGrid.dims (GridState.grid old)) x y z = true ->
  exists new,
    GridState.makeUpdated old rules = Some new /\
    GridState.oldGrid new = GridState.grid old /\
    let v := rules (CellGrid.getCell (GridState.grid old) x y z)
                   (CellGrid.neighbourPop (GridState.grid old) x y z) in
    let inCore := (v >? 0) && CellGrid.isVisible (GridState.grid old) x y z in
    CellGrid.getCell (GridState.grid new) x y z = JNum v /\
    CellGrid.getCell (GridState.core new) x y z = (if inCore then JNum 1 else JUndef) /\
    CellGrid.isVisible (GridState.core new) x y z = inCore.
Proof.
  intros Hin.
  pose proof (inCuboid_positive _ _ _ _ Hin) as Hpos.
  destruct (makeUpdated_returns old rules Hpos) as (newCells & newCore & Hfold & Hnew).
  set (g := GridState.grid old) in *. set (d := CellGrid.dims g) in *.
  assert (Hlen : Z.of_nat (length (repeat JUndef (Z.to_nat (CellGrid.size d))))
                 = CellGrid.size d).
  { rewrite repeat_length. pose proof (indexOf_cuboid_range d x y z Hin). lia. }
  destruct (fold_updateCell g rules (cuboid d) _ _
              (fun x y z H => proj1 (In_cuboid d x y z) H) Hlen Hlen)
    as (cells' & core' & Hfold' & _ & _ & Hget).
  pose proof (eq_trans (eq_sym Hfold') Hfold) as E. inversion E; subst cells' core'.
  destruct (Hget x y z Hin) as [G1 G2]. fold d in G1, G2.
  destruct (in_dec coord_eq_dec (x, y, z) (cuboid d)) as [_|Hn];
    [|exfalso; apply Hn; apply In_cuboid; assumption].
  rewrite get_repeat_undef in G2.
  eexists. split; [exact Hnew|]. split; [reflexivity|].
  cbv zeta. unfold CellGrid.isVisible, CellGrid.getCell.
  cbn [GridState.grid GridState.core CellGrid.dims CellGrid.cells].
  rewrite (inCuboid_inBounds d x y z Hin), G1, G2.
  split; [reflexivity|]. split; [reflexivity|].
  destruct (_ && _); reflexivity.
Qed.

Lemma makeUpdated_cells_witness :
  exists new,
    GridState.makeUpdated stateFull111 ruleCount = Some new /\
    GridState.oldGrid new = GridState.grid stateFull111 /\
    let v := ruleCount (CellGrid.getCell (GridState.grid stateFull111) 0 0 0)
                       (CellGrid.neighbourPop (GridState.grid stateFull111) 0 0 0) in
    let inCore := (v >? 0) && CellGrid.isVisible (GridState.grid stateFull111) 0 0 0 in
    CellGrid.getCell (GridState.grid new) 0 0 0 = JNum v /\
    CellGrid.getCell (GridState.core new) 0 0 0 = (if inCore then JNum 1 else JUndef) /\
    CellGrid.isVisible (GridState.core new) 0 0 0 = inCore.
Proof.
  apply (makeUpdated_cells stateFull111 ruleCount 0 0 0).
  reflexivity.
Defined.

(** C1 as stated fails on the code in two ways.  On the empty 2 x 2 x 2
    grid with the rule that is constantly 0, the core cell of [(0, 0, 0)] is
    an array hole and not 0.  On the full 2 x 2 x 2 grid with the rule that
    returns the neighbour count, the position [(-1, -1, 1)], which [inBounds]
    accepts, reads the slot of [(-1, 0, -1)], filled with that cell's count. *)
Lemma updatedCellsAre01_fails :
  (GridDimensions.inBounds dims111 0 0 0 = true /\
   ~ updatedCellsAre01 stateEmpty111 ruleZero 0 0 0) /\
  (GridDimensions.inBounds dims111 (-1) (-1) 1 = true /\
   ~ updatedCellsAre01 stateFull111 ruleCount (-1) (-1) 1).
Proof.
  split; (split; [reflexivity|]).
  - intros (new & Hnew & _ & _ & Hcore).
    vm_compute in Hnew. inversion Hnew; subst new; clear Hnew.
    vm_compute in Hcore. discriminate.
  - intros (new & Hnew & _ & Hcell & _).
    vm_compute in Hnew. inversion Hnew; subst new; clear Hnew.
    vm_compute in Hcell. discriminate.
Qed.

(** ** GridState: skipping updates *)

(** C4, on the code: the [for ... in] loop of [skipUpdates] runs its body
    once whatever [iterations] is, so [skipUpdates] is one [makeUpdated]; it
    differs from zero updates and from three chained updates on the empty
    2 x 2 x 2 grid with the rule [current + 1]. *)
Theorem skipUpdates_updates_once :
  (forall (initState : GridState.t) (rules : GridState.rule) (iterations : Z),
      GridState.skipUpdates initState rules iterations
      = GridState.makeUpdated initState rules) /\
  GridState.skipUpdates stateEmpty111 ruleSucc 0 <> chainUpdates ruleSucc 0 stateEmpty111 /\
  GridState.skipUpdates stateEmpty111 ruleSucc 3 <> chainUpdates ruleSucc 3 stateEmpty111 /\
  GridState.skipUpdates stateEmpty111 ruleSucc 3 = chainUpdates ruleSucc 1 stateEmpty111.
Proof.
  split; [reflexivity|].
  split; [|split]; try (intros E; vm_compute in E; discriminate).
  reflexivity.
Qed.

(** ** AnimFace: ambient occlusion over time *)

(** C7, on the code: [getAOs] hands [smoothStep progress] to [mix4], which
    applies [smoothStep] to it again, so the endpoints are mixed with factor
    [smoothStep (smoothStep progress)].  At progress 1/4 the factor is
    1075/16384 and not [smoothStep (1/4) = 5/32], and the AO values of a
    growing face differ from the mix with factor [smoothStep (1/4)]. *)
Theorem getAOs_smooths_twice :
  (forall (f : AnimFace.t) (progress : Q),
      AnimFace.getAOs f (Some progress)
      = aosMixedBy f (Utils.smoothStep (Utils.smoothStep progress))) /\
  Qeq_bool (Utils.smoothStep (1 # 4)) (5 # 32) = true /\
  Qeq_bool (Utils.smoothStep (Utils.smoothStep (1 # 4))) (1075 # 16384) = true /\
  option_aos4_eqb (AnimFace.getAOs growHalf (Some (1 # 4)%Q))
                  (aosMixedBy growHalf (Utils.smoothStep (1 # 4))) = false.
Proof.
  split.
  - intros f progress. unfold AnimFace.getAOs, aosMixedBy, Utils.mix4, linearMix4.
    cbn [AnimFace.defaultProgress].
    destruct (AnimFace.type f), (AnimFace.start f) as [[? ? ? ? [[[? ?] ?] ?]]|],
      (AnimFace.end_ f) as [[? ? ? ? [[[? ?] ?] ?]]|]; reflexivity.
  - repeat split; vm_compute; reflexivity.
Qed.

(** ** Face and AnimFace: the faces of a cell *)

Lemma SIDES_orientations : Face.SIDES = orientations.
Proof. reflexivity. Qed.

Lemma visSides_keptByCulling (cullGrid : CellGrid.t) (x y z : Z) :
  CellGrid.isVisible cullGrid x y z = true ->
  Face.visSides cullGrid x y z = keptByCulling cullGrid x y z.
Proof.
  intros H. unfold keptByCulling, Face.visSides. rewrite H, SIDES_orientations.
  apply filter_ext. intros side.
  destruct side; unfold outward, Face.direction;
    cbn [Face.SIDE_value Face.directions nth]; rewrite ?Z.add_0_r; reflexivity.
Qed.

(** The culled faces of a cell: one per orientation kept, whatever grid
    shades them. *)
Lemma Face_makeFromCell_kept (cullGrid aoGrid : CellGrid.t) (x y z : Z) :
  Face.makeFromCell cullGrid x y z (Some aoGrid)
  = map (faceOf aoGrid x y z) (keptByCulling cullGrid x y z).
Proof.
  unfold Face.makeFromCell.
  destruct (CellGrid.isVisible cullGrid x y z) eqn:E; cbn [negb].
  - rewrite visSides_keptByCulling by assumption. reflexivity.
  - unfold keptByCulling. rewrite E. reflexivity.
Qed.

Lemma mapi_from_succ {A B : Type} (f : A -> nat -> B) (n : nat) (l : list A) :
  AnimFace.mapi_from (S n) f l = AnimFace.mapi_from n (fun v i => f v (S i)) l.
Proof.
  revert n. induction l as [|v l IH]; intros n; cbn [AnimFace.mapi_from]; [reflexivity|].
  rewrite IH. reflexivity.
Qed.

(** Pairing by index two lists mapped from the same list pairs the images
    of each element. *)
Lemma mapi_paired {S A B C : Type} (fa : S -> A) (fb : S -> B)
      (pair : A -> option B -> C) (l : list S) :
  AnimFace.mapi (fun a i => pair a (nth_error (map fb l) i)) (map fa l)
  = map (fun s => pair (fa s) (Some (fb s))) l.
Proof.
  unfold AnimFace.mapi.
  induction l as [|s l IH]; [reflexivity|].
  cbn [map AnimFace.mapi_from nth_error]. f_equal.
  rewrite mapi_from_succ. cbn [nth_error]. exact IH.
Qed.

(** A cell that stays: the faces culled against [core] and shaded by
    [oldGrid], paired by index with those shaded by [grid]. *)
Lemma transition_faces_paired (state : GridState.t) (x y z : Z) :
  AnimFace.mapi
    (fun start i =>
       AnimFace.makeTransition
         start
         (nth_error (Face.makeFromCell (GridState.core state) x y z
                                       (Some (GridState.grid state))) i)
         (Some AnimFace.AO_ONLY))
    (Face.makeFromCell (GridState.core state) x y z (Some (GridState.oldGrid state)))
  = map (fun side =>
           AnimFace.make (Some (faceOf (GridState.oldGrid state) x y z side))
                         (Some (faceOf (GridState.grid state) x y z side))
                         AnimFace.AO_ONLY)
        (keptByCulling (GridState.core state) x y z).
Proof.
  rewrite !Face_makeFromCell_kept.
  apply (mapi_paired (faceOf (GridState.oldGrid state) x y z)
                     (faceOf (GridState.grid state) x y z)
                     (fun a b => AnimFace.makeTransition a b (Some AnimFace.AO_ONLY))).
Qed.

(** C3: the animated faces of a cell by the visibility of the cell in
    [oldGrid] and in [grid]: none when it is visible in neither; one GROW
    face per orientation, shaded by [grid], when it appears; one SHRINK face
    per orientation, shaded by [oldGrid], when it disappears; and when it
    stays, one AO_ONLY face per orientation kept by culling against [core],
    from the face shaded by [oldGrid] to the face of the same orientation
    shaded by [grid]. *)
Theorem makeFromCell_classification (state : GridState.t) (x y z : Z) :
  AnimFace.makeFromCell state x y z =
  match CellGrid.isVisible (GridState.oldGrid state) x y z,
        CellGrid.isVisible (GridState.grid state) x y z with
  | false, false => []
  | false, true =>
      map (fun side =>
             AnimFace.make None (Some (faceOf (GridState.grid state) x y z side))
                           AnimFace.GROW)
          orientations
  | true, false =>
      map (fun side =>
             AnimFace.make (Some (faceOf (GridState.oldGrid state) x y z side)) None
                           AnimFace.SHRINK)
          orientations
  | true, true =>
      map (fun side =>
             AnimFace.make (Some (faceOf (GridState.oldGrid state) x y z side))
                           (Some (faceOf (GridState.grid state) x y z side))
                           AnimFace.AO_ONLY)
          (keptByCulling (GridState.core state) x y z)
  end.
Proof.
  unfold AnimFace.makeFromCell.
  destruct (CellGrid.isVisible (GridState.oldGrid state) x y z),
           (CellGrid.isVisible (GridState.grid state) x y z); cbn [negb andb].
  - apply transition_faces_paired.
  - unfold Face.makeAllFromCell. rewrite map_map. reflexivity.
  - unfold Face.makeAllFromCell. rewrite map_map. reflexivity.
  - reflexivity.
Qed.

(** ** AnimFace: the getters never dereference a missing face *)

Lemma length_Face_getVertices (f : Face.t) (scale : option Q) :
  length (Face.getVertices f scale) = 4%nat.
Proof. unfold Face.getVertices. rewrite length_map. destruct (Face.side f); reflexivity. Qed.

Lemma mapiM_from_some {A B : Type} (f : A -> nat -> option B) (l : list A) (n : nat) :
  (forall k v, nth_error l k = Some v -> f v (n + k)%nat <> None) ->
  AnimFace.mapiM_from n f l <> None.
Proof.
  revert n. induction l as [|v l IH]; intros n H; cbn [AnimFace.mapiM_from].
  - discriminate.
  - pose proof (H 0%nat v eq_refl) as H0. rewrite Nat.add_0_r in H0.
    destruct (f v n); [|congruence].
    specialize (IH (S n)).
    destruct (AnimFace.mapiM_from (S n) f l); [discriminate|].
    apply IH. intros k w Hk. replace (S n + k)%nat with (n + S k)%nat by lia.
    apply H. exact Hk.
Qed.

Section GettersDefined.

Variable cos : Q -> Q.

Lemma endpoints_getters (f : AnimFace.t) :
  endpointsPresent f = true ->
  (forall progress,
      AnimFace.getVertices cos f progress <> None /\
      AnimFace.getNorm f progress <> None /\
      AnimFace.getAOs f progress <> None) /\
  (forall offset, AnimFace.getIndices f offset <> None).
Proof.
  unfold endpointsPresent, AnimFace.getVertices, AnimFace.getNorm,
    AnimFace.getAOs, AnimFace.getIndices.
  destruct (AnimFace.type f), (AnimFace.start f) as [s|], (AnimFace.end_ f) as [e|];
    intros H; try discriminate H; (split; [intros progress; repeat split|intros offset]);
    try discriminate.
  apply mapiM_from_some.
  intros k v Hk. cbn [Nat.add].
  assert (Hlt : (k < length (Face.getVertices e None))%nat).
  { rewrite length_Face_getVertices, <- (length_Face_getVertices s None).
    apply nth_error_Some. congruence. }
  apply nth_error_Some in Hlt.
  destruct (nth_error (Face.getVertices e None) k); [discriminate|congruence].
Qed.

End GettersDefined.

Lemma makeFromCell_endpoints (state : GridState.t) (x y z : Z) (f : AnimFace.t) :
  In f (AnimFace.makeFromCell state x y z) -> endpointsPresent f = true.
Proof.
  unfold AnimFace.makeFromCell.
  destruct (CellGrid.isVisible (GridState.oldGrid state) x y z),
           (CellGrid.isVisible (GridState.grid state) x y z); cbn [negb andb].
  - rewrite transition_faces_paired. intros H.
    apply in_map_iff in H. destruct H as (side & <- & _). reflexivity.
  - intros H. apply in_map_iff in H. destruct H as (face & <- & _). reflexivity.
  - intros H. apply in_map_iff in H. destruct H as (face & <- & _). reflexivity.
  - contradiction.
Qed.

Lemma fold_left_concat {A : Type} (F : Z -> Z -> Z -> list A)
      (l : list (Z * Z * Z)) (acc : list A) :
  fold_left (fun faces '(x, y, z) => faces ++ F x y z) l acc
  = acc ++ flat_map (fun '(x, y, z) => F x y z) l.
Proof.
  revert acc. induction l as [|[[x y] z] l IH]; intros acc; cbn [fold_left flat_map].
  - rewrite app_nil_r. reflexivity.
  - rewrite IH, app_assoc. reflexivity.
Qed.

Lemma makeFromGridState_flat_map (state : GridState.t) :
  AnimFace.makeFromGridState state =
  flat_map (fun '(x, y, z) => AnimFace.makeFromCell state x y z)
           (GridDimensions.coords (CellGrid.dims (GridState.grid state))).
Proof.
  unfold AnimFace.makeFromGridState.
  rewrite (fold_left_concat (AnimFace.makeFromCell state)). reflexivity.
Qed.

(** C10: every animated face that [makeFromCell], and so
    [makeFromGridState], builds from a state has the endpoints its type
    needs ([end] for GROW, [start] for SHRINK, both for TRANSITION and
    AO_ONLY: the two face lists of a cell that stays are culled against the
    same [core], so the end face read by index is there); hence
    [getVertices], [getNorm], [getAOs] and [getIndices] return a value on it
    for every progress and offset. *)
Theorem makeFromCell_getters_defined
        (cos : Q -> Q) (state : GridState.t) (f : AnimFace.t) :
  (exists x y z, In f (AnimFace.makeFromCell state x y z)) \/
  In f (AnimFace.makeFromGridState state) ->
  endpointsPresent f = true /\
  (forall progress,
      AnimFace.getVertices cos f progress <> None /\
      AnimFace.getNorm f progress <> None /\
      AnimFace.getAOs f progress <> None) /\
  (forall offset, AnimFace.getIndices f offset <> None).
Proof.
  intros H.
  assert (He : endpointsPresent f = true).
  { destruct H as [(x & y & z & H)|H].
    - apply (makeFromCell_endpoints state x y z). assumption.
    - rewrite makeFromGridState_flat_map in H. apply in_flat_map in H.
      destruct H as ([[x y] z] & _ & H).
      apply (makeFromCell_endpoints state x y z). assumption. }
  split; [assumption|]. apply endpoints_getters. assumption.
Qed.

Lemma makeFromCell_getters_defined_witness :
  In animTop111 (AnimFace.makeFromCell stateFull111 0 0 0) /\
  endpointsPresent animTop111 = true /\
  AnimFace.getVertices (fun _ => 1%Q) animTop111 (Some (1 # 2)%Q) <> None /\
  AnimFace.getNorm animTop111 (Some (1 # 2)%Q) <> None /\
  AnimFace.getAOs animTop111 (Some (1 # 2)%Q) <> None /\
  AnimFace.getIndices animTop111 0 <> None.
Proof.
  assert (Hin : In animTop111 (AnimFace.makeFromCell stateFull111 0 0 0))
    by (left; reflexivity).
  split; [exact Hin|].
  destruct (makeFromCell_getters_defined (fun _ => 1%Q) stateFull111 animTop111)
    as (He & Hp & Ho).
  - left. exists 0, 0, 0. exact Hin.
  - split; [exact He|].
    destruct (Hp (Some (1 # 2)%Q)) as (H1 & H2 & H3).
    repeat split; try assumption. apply Ho.
Defined.

(** ** Utils: clamping, easing, mixing *)

Lemma clamp_cases (val lo hi : Q) :
  (lo <= hi)%Q ->
  ((val <= lo)%Q /\ Utils.clamp val lo hi == lo) \/
  ((lo <= val <= hi)%Q /\ Utils.clamp val lo hi == val) \/
  ((hi <= val)%Q /\ Utils.clamp val lo hi == hi).
Proof.
  intros H. unfold Utils.clamp.
  destruct (Q.max_spec val lo) as [[H1 E1]|[H1 E1]];
    destruct (Q.min_spec (Qmax val lo) hi) as [[H2 E2]|[H2 E2]];
    rewrite E2; rewrite ?E1 in *.
  - left. split; [lra|reflexivity].
  - left. split; lra.
  - right. left. split; [lra|reflexivity].
  - right. right. split; [lra|reflexivity].
Qed.

(** X1: [clamp] keeps a value of the interval, and sends any value into it;
    with the bounds in the wrong order the result is the upper bound. *)
Theorem clamp_interval (val lo hi : Q) :
  ((lo <= hi)%Q ->
   (lo <= Utils.clamp val lo hi <= hi)%Q /\
   ((lo <= val <= hi)%Q -> Utils.clamp val lo hi == val)) /\
  ((hi < lo)%Q -> Utils.clamp val lo hi == hi).
Proof.
  split.
  - intros H. destruct (clamp_cases val lo hi H) as [[H1 E]|[[H1 E]|[H1 E]]];
      rewrite E; split; try lra; intros; lra.
  - intros H. unfold Utils.clamp.
    destruct (Q.max_spec val lo) as [[H1 E1]|[H1 E1]];
      destruct (Q.min_spec (Qmax val lo) hi) as [[H2 E2]|[H2 E2]];
      rewrite E2; rewrite ?E1 in *; lra.
Qed.

Lemma clamp_interval_witness :
  (0 <= Utils.clamp (3 # 2) 0 1 <= 1)%Q /\
  Utils.clamp (1 # 3) 0 1 == 1 # 3 /\
  Utils.clamp (1 # 3) 1 0 == 0.
Proof.
  destruct (clamp_interval (3 # 2) 0 1) as [H _].
  destruct (clamp_interval (1 # 3) 0 1) as [H' _].
  destruct (clamp_interval (1 # 3) 1 0) as [_ H''].
  split; [apply H; lra|]. split; [apply H'; lra|apply H''; lra].
Defined.

Lemma smoothStep_poly (t : Q) :
  (0 <= Utils.clamp t 0 1 <= 1)%Q /\
  Utils.smoothStep t ==
  Utils.clamp t 0 1 * Utils.clamp t 0 1 * (3 - 2 * Utils.clamp t 0 1).
Proof.
  assert (Hc : (0 <= Utils.clamp t 0 1 <= 1)%Q).
  { destruct (clamp_cases t 0 1) as [[H1 E]|[[H1 E]|[H1 E]]]; [lra|..]; rewrite E; lra. }
  split; [exact Hc|].
  unfold Utils.smoothStep. set (c := Utils.clamp t 0 1) in *.
  assert (Hp : (0 <= c * c * (3 - 2 * c) <= 1)%Q).
  { assert (H1 : (0 <= c * c)%Q) by (apply Qmult_le_0_compat; lra).
    assert (H2 : (0 <= c * c * (3 - 2 * c))%Q) by (apply Qmult_le_0_compat; lra).
    assert (H3 : (0 <= (1 - c) * (1 - c))%Q) by (apply Qmult_le_0_compat; lra).
    assert (H4 : (0 <= (1 - c) * (1 - c) * (1 + 2 * c))%Q)
      by (apply Qmult_le_0_compat; lra).
    lra. }
  destruct (clamp_cases (c * c * (3 - 2 * c)) 0 1) as [[H1 E]|[[H1 E]|[H1 E]]];
    [lra|..]; rewrite E; lra.
Qed.

Lemma smoothStep_unit (t : Q) : (0 <= Utils.smoothStep t <= 1)%Q.
Proof.
  destruct (smoothStep_poly t) as [Hc E]. rewrite E.
  set (c := Utils.clamp t 0 1) in *.
  assert (H1 : (0 <= c * c)%Q) by (apply Qmult_le_0_compat; lra).
  assert (H2 : (0 <= c * c * (3 - 2 * c))%Q) by (apply Qmult_le_0_compat; lra).
  assert (H3 : (0 <= (1 - c) * (1 - c))%Q) by (apply Qmult_le_0_compat; lra).
  assert (H4 : (0 <= (1 - c) * (1 - c) * (1 + 2 * c))%Q)
    by (apply Qmult_le_0_compat; lra).
  lra.
Qed.

Lemma smoothStep_inside (t : Q) :
  (0 <= t <= 1)%Q -> Utils.smoothStep t == t * t * (3 - 2 * t).
Proof.
  intros H. destruct (smoothStep_poly t) as [_ E]. rewrite E.
  destruct (clamp_cases t 0 1) as [[H1 Ec]|[[H1 Ec]|[H1 Ec]]]; [lra|..]; rewrite Ec.
  - assert (Et : t == 0) by lra. rewrite Et. lra.
  - reflexivity.
  - assert (Et : t == 1) by lra. rewrite Et. lra.
Qed.

Lemma smoothStep_low (t : Q) : (t <= 0)%Q -> Utils.smoothStep t == 0.
Proof.
  intros H. destruct (smoothStep_poly t) as [_ E]. rewrite E.
  destruct (clamp_cases t 0 1) as [[H1 Ec]|[[H1 Ec]|[H1 Ec]]]; [lra|..]; rewrite Ec;
    try lra.
  assert (Et : t == 0) by lra. rewrite Et. lra.
Qed.

Lemma smoothStep_high (t : Q) : (1 <= t)%Q -> Utils.smoothStep t == 1.
Proof.
  intros H. destruct (smoothStep_poly t) as [_ E]. rewrite E.
  destruct (clamp_cases t 0 1) as [[H1 Ec]|[[H1 Ec]|[H1 Ec]]]; [lra|..]; rewrite Ec;
    try lra.
  assert (Et : t == 1) by lra. rewrite Et. lra.
Qed.

(** X2: [smoothStep] is 0 up to 0, the cubic [t^2 (3 - 2t)] on [[0, 1]] (the
    outer clamp never acts) and 1 from 1 on; its values lie in [[0, 1]]. *)
Theorem smoothStep_shape (t : Q) :
  (0 <= Utils.smoothStep t <= 1)%Q /\
  ((t <= 0)%Q -> Utils.smoothStep t == 0) /\
  ((0 <= t <= 1)%Q -> Utils.smoothStep t == t * t * (3 - 2 * t)) /\
  ((1 <= t)%Q -> Utils.smoothStep t == 1).
Proof.
  split; [apply smoothStep_unit|].
  split; [apply smoothStep_low|].
  split; [apply smoothStep_inside|apply smoothStep_high].
Qed.

Lemma smoothStep_shape_witness :
  Utils.smoothStep (-3) == 0 /\
  Utils.smoothStep (1 # 2) == (1 # 2) * (1 # 2) * (3 - 2 * (1 # 2)) /\
  Utils.smoothStep 7 == 1.
Proof.
  destruct (smoothStep_shape (-3)) as (_ & H0 & _).
  destruct (smoothStep_shape (1 # 2)) as (_ & _ & H1 & _).
  destruct (smoothStep_shape 7) as (_ & _ & _ & H2).
  split; [apply H0; lra|]. split; [apply H1; lra|apply H2; lra].
Defined.

Lemma mix_smooth_low (a b control : Q) :
  (control <= 0)%Q -> Utils.mix a b (Utils.smoothStep control) == a.
Proof.
  intros H. unfold Utils.mix. rewrite (smoothStep_low control H). ring.
Qed.

Lemma mix_smooth_high (a b control : Q) :
  (1 <= control)%Q -> Utils.mix a b (Utils.smoothStep control) == b.
Proof.
  intros H. unfold Utils.mix. rewrite (smoothStep_high control H). ring.
Qed.

(** X6: [mix3] and [mix4] ease their ratio through [smoothStep], which
    clamps it: a ratio of 0 or less gives the first tuple and a ratio of 1
    or more gives the second, however far outside [[0, 1]] the ratio is. *)
Theorem mix4_any_ratio (a b : Face.aos4) (a3 b3 : Q * Q * Q) (control : Q) :
  ((control <= 0)%Q ->
   aos4_eq (Utils.mix4 a b control) a /\ q3_eq (Utils.mix3 a3 b3 control) a3) /\
  ((1 <= control)%Q ->
   aos4_eq (Utils.mix4 a b control) b /\ q3_eq (Utils.mix3 a3 b3 control) b3).
Proof.
  destruct a as [[[a0 a1] a2] a4], b as [[[b0 b1] b2] b4].
  destruct a3 as [[x0 x1] x2], b3 as [[y0 y1] y2].
  unfold aos4_eq, q3_eq, Utils.mix4, Utils.mix3.
  split; intros H.
  - repeat split; apply mix_smooth_low; assumption.
  - repeat split; apply mix_smooth_high; assumption.
Qed.

Lemma mix4_any_ratio_witness :
  aos4_eq (Utils.mix4 (1, 1, 1, 1)%Q (1 # 4, 1 # 2, 3 # 4, 1)%Q (-2)) (1, 1, 1, 1)%Q /\
  aos4_eq (Utils.mix4 (1, 1, 1, 1)%Q (1 # 4, 1 # 2, 3 # 4, 1)%Q 9)
          (1 # 4, 1 # 2, 3 # 4, 1)%Q.
Proof.
  destruct (mix4_any_ratio (1, 1, 1, 1)%Q (1 # 4, 1 # 2, 3 # 4, 1)%Q
                           (0, 0, 0)%Q (0, 0, 0)%Q (-2)) as (H0 & _).
  destruct (mix4_any_ratio (1, 1, 1, 1)%Q (1 # 4, 1 # 2, 3 # 4, 1)%Q
                           (0, 0, 0)%Q (0, 0, 0)%Q 9) as (_ & H1).
  split; [apply H0; lra|apply H1; lra].
Defined.

(** ** GridDimensions: the enumeration follows the flat storage *)

Lemma zrange_app (a b c : Z) : a <= b <= c -> zrange a b ++ zrange b c = zrange a c.
Proof.
  intros H. remember (Z.to_nat (b - a)) as n eqn:En.
  revert a H En. induction n as [|n IH]; intros a H En.
  - rewrite (zrange_nil a b) by lia. replace a with b by lia. reflexivity.
  - rewrite (zrange_cons a b), (zrange_cons a c) by lia.
    cbn [app]. f_equal. apply IH; lia.
Qed.

Lemma map_zrange_shift (k lo hi : Z) :
  map (fun z => k + z) (zrange lo hi) = zrange (k + lo) (k + hi).
Proof.
  unfold zrange. rewrite map_map.
  replace (k + hi - (k + lo)) with (hi - lo) by lia.
  apply map_ext. intros n. lia.
Qed.

Lemma map_flat_map {A B C : Type} (f : B -> C) (g : A -> list B) (l : list A) :
  map f (flat_map g l) = flat_map (fun a => map f (g a)) l.
Proof.
  induction l as [|a l IH]; [reflexivity|].
  cbn [flat_map]. rewrite map_app, IH. reflexivity.
Qed.

(** Consecutive blocks of width [w] concatenate into one range. *)
Lemma flat_map_blocks (F : Z -> list Z) (start w : Z) (n : nat) (lo : Z) :
  0 <= w ->
  (forall y, lo <= y < lo + Z.of_nat n ->
             F y = zrange (start + (y - lo) * w) (start + (y - lo) * w + w)) ->
  flat_map F (zrange lo (lo + Z.of_nat n)) = zrange start (start + Z.of_nat n * w).
Proof.
  intros Hw. revert lo start. induction n as [|n IH]; intros lo start HF.
  - rewrite !zrange_nil by lia. reflexivity.
  - rewrite (zrange_cons lo) by lia. cbn [flat_map].
    rewrite (HF lo) by lia.
    replace (lo + Z.of_nat (S n)) with (lo + 1 + Z.of_nat n) by lia.
    rewrite (IH (lo + 1) (start + w)).
    + replace (start + (lo - lo) * w) with start by lia.
      replace (start + w + Z.of_nat n * w) with (start + Z.of_nat (S n) * w) by lia.
      apply zrange_app. nia.
    + intros y Hy. rewrite (HF y) by lia. f_equal; lia.
Qed.

Lemma flat_map_blocks_range (F : Z -> list Z) (start w lo hi : Z) :
  0 <= w -> lo <= hi ->
  (forall y, lo <= y < hi ->
             F y = zrange (start + (y - lo) * w) (start + (y - lo) * w + w)) ->
  flat_map F (zrange lo hi) = zrange start (start + (hi - lo) * w).
Proof.
  intros Hw Hle HF.
  replace hi with (lo + Z.of_nat (Z.to_nat (hi - lo))) at 1 by lia.
  rewrite (flat_map_blocks F start w); [|assumption|].
  - rewrite Z2Nat.id by lia. reflexivity.
  - intros y Hy. apply HF. lia.
Qed.

Lemma map_indexOf_row (d : GridDimensions.t) (x y : Z) :
  0 < GridDimensions.halfZ d ->
  map (fun '(a, b, c) => GridDimensions.indexOf d a b c) (row d x y (- GridDimensions.halfZ d))
  = zrange (GridDimensions.indexOf d x y (- GridDimensions.halfZ d))
           (GridDimensions.indexOf d x y (- GridDimensions.halfZ d)
            + 2 * GridDimensions.halfZ d).
Proof.
  intros HZ. unfold row. rewrite map_map.
  rewrite (map_ext _ (fun z => (GridDimensions.indexOf d x y 0) + z)).
  - rewrite map_zrange_shift. f_equal; unfold GridDimensions.indexOf; lia.
  - intros z. unfold GridDimensions.indexOf. lia.
Qed.

Lemma map_indexOf_slab (d : GridDimensions.t) (x : Z) :
  positive d ->
  map (fun '(a, b, c) => GridDimensions.indexOf d a b c) (slab d x (- GridDimensions.halfY d))
  = zrange (GridDimensions.indexOf d x (- GridDimensions.halfY d) (- GridDimensions.halfZ d))
           (GridDimensions.indexOf d x (- GridDimensions.halfY d) (- GridDimensions.halfZ d)
            + 4 * GridDimensions.halfY d * GridDimensions.halfZ d).
Proof.
  intros (HX & HY & HZ). unfold slab. rewrite map_flat_map.
  rewrite (flat_map_blocks_range _
             (GridDimensions.indexOf d x (- GridDimensions.halfY d) (- GridDimensions.halfZ d))
             (2 * GridDimensions.halfZ d)).
  - f_equal. ring.
  - lia.
  - lia.
  - intros y Hy. rewrite map_indexOf_row by assumption.
    f_equal; unfold GridDimensions.indexOf; ring.
Qed.

Lemma map_indexOf_cuboid (d : GridDimensions.t) :
  positive d ->
  map (fun '(a, b, c) => GridDimensions.indexOf d a b c) (cuboid d)
  = zrange 0 (CellGrid.size d).
Proof.
  intros Hpos. pose proof Hpos as (HX & HY & HZ).
  rewrite cuboid_slabs, map_flat_map.
  rewrite (flat_map_blocks_range _ 0 (4 * GridDimensions.halfY d * GridDimensions.halfZ d)).
  - f_equal. unfold CellGrid.size. ring.
  - nia.
  - lia.
  - intros x Hx. rewrite map_indexOf_slab by assumption.
    f_equal; unfold GridDimensions.indexOf; ring.
Qed.

Lemma NoDup_zrange (lo hi : Z) : NoDup (zrange lo hi).
Proof.
  remember (Z.to_nat (hi - lo)) as n eqn:En.
  revert lo En. induction n as [|n IH]; intros lo En.
  - rewrite zrange_nil by lia. constructor.
  - rewrite zrange_cons by lia. constructor; [|apply IH; lia].
    rewrite In_zrange. lia.
Qed.

Lemma length_zrange (lo hi : Z) : length (zrange lo hi) = Z.to_nat (hi - lo).
Proof. unfold zrange. rewrite length_map, length_seq. reflexivity. Qed.

(** X7: Iterating over positive dimensions yields the cuboid
    [[-X, X) x [-Y, Y) x [-Z, Z)] in nested order (x outermost), each
    coordinate once, and in the order of the flat storage: the indices of
    the coordinates enumerated are 0, 1, ..., 8XYZ - 1.  With [X <= 0] the
    iteration yields nothing. *)
Theorem coords_storage_order (d : GridDimensions.t) :
  (positive d ->
   GridDimensions.coords d = cuboid d /\
   map (fun '(a, b, c) => GridDimensions.indexOf d a b c) (GridDimensions.coords d)
   = zrange 0 (CellGrid.size d) /\
   NoDup (GridDimensions.coords d) /\
   Z.of_nat (length (GridDimensions.coords d)) = CellGrid.size d) /\
  (GridDimensions.halfX d <= 0 -> GridDimensions.coords d = []).
Proof.
  split.
  - intros Hpos. pose proof (map_indexOf_cuboid d Hpos) as Hmap.
    rewrite coords_cuboid by assumption.
    split; [reflexivity|]. split; [exact Hmap|]. split.
    + apply (NoDup_map_inv (fun '(a, b, c) => GridDimensions.indexOf d a b c)).
      rewrite Hmap. apply NoDup_zrange.
    + rewrite <- (length_map (fun '(a, b, c) => GridDimensions.indexOf d a b c)), Hmap.
      rewrite length_zrange. destruct Hpos as (HX & HY & HZ).
      assert (0 <= CellGrid.size d)
        by (unfold CellGrid.size; repeat apply Z.mul_nonneg_nonneg; lia).
      lia.
  - intros HX. unfold GridDimensions.coords. cbn [GridDimensions.forOf].
    unfold GridDimensions.next, GridDimensions.iterator. unfold_dims.
    destruct (_ >=? GridDimensions.halfZ d); destruct (_ >=? GridDimensions.halfY d);
      rewrite geb_true by lia; reflexivity.
Qed.

Lemma coords_storage_order_witness :
  GridDimensions.coords dims111 = cuboid dims111 /\
  map (fun '(a, b, c) => GridDimensions.indexOf dims111 a b c) (GridDimensions.coords dims111)
  = zrange 0 8 /\
  GridDimensions.coords (GridDimensions.make 0 3 3) = [].
Proof.
  destruct (coords_storage_order dims111) as [H _].
  destruct H as (H1 & H2 & _); [unfold positive; cbn; lia|].
  destruct (coords_storage_order (GridDimensions.make 0 3 3)) as [_ H'].
  split; [exact H1|]. split; [exact H2|]. apply H'. cbn. lia.
Defined.

(** X8: On the cuboid the dimensions enumerate, [indexOf] is a bijection onto
    the indices [0 .. 8XYZ - 1] of the flat storage. *)
Theorem indexOf_cuboid_bijective (d : GridDimensions.t) :
  positive d ->
  (forall x y z, inCuboid d x y z = true ->
                 0 <= GridDimensions.indexOf d x y z < CellGrid.size d) /\
  (forall x y z x' y' z',
      inCuboid d x y z = true -> inCuboid d x' y' z' = true ->
      GridDimensions.indexOf d x y z = GridDimensions.indexOf d x' y' z' ->
      (x, y, z) = (x', y', z')) /\
  (forall n, 0 <= n < CellGrid.size d ->
             exists x y z, inCuboid d x y z = true /\ GridDimensions.indexOf d x y z = n).
Proof.
  intros Hpos. split; [apply indexOf_cuboid_range|].
  split; [apply indexOf_cuboid_inj|].
  intros n Hn. apply indexOf_cuboid_surj; assumption.
Qed.

Lemma indexOf_cuboid_bijective_witness :
  0 <= GridDimensions.indexOf dims111 0 (-1) 0 < CellGrid.size dims111 /\
  exists x y z, inCuboid dims111 x y z = true /\ GridDimensions.indexOf dims111 x y z = 5.
Proof.
  destruct (indexOf_cuboid_bijective dims111) as (H1 & _ & H3);
    [unfold positive; cbn; lia|].
  split; [apply H1; reflexivity|apply H3; cbn; lia].
Defined.

(** ** CellGrid: reads *)

Lemma get_In_or_undef (a : array) (i : Z) : get a i = JUndef \/ In (get a i) a.
Proof.
  unfold get. destruct (i <? 0); [left; reflexivity|].
  destruct (Nat.lt_ge_cases (Z.to_nat i) (length a)) as [H|H].
  - right. apply nth_In. assumption.
  - left. apply nth_overflow. assumption.
Qed.

Lemma get_inside (a : array) (i : Z) :
  0 <= i < Z.of_nat (length a) -> In (get a i) a.
Proof.
  intros H. unfold get. destruct (i <? 0) eqn:E; [apply Z.ltb_lt in E; lia|].
  apply nth_In. lia.
Qed.

Lemma populated_iff (g : CellGrid.t) :
  populated g = true <->
  Z.of_nat (length (CellGrid.cells g)) = CellGrid.size (CellGrid.dims g) /\
  forall v, In v (CellGrid.cells g) -> exists n, v = JNum n.
Proof.
  unfold populated. rewrite andb_true_iff, Z.eqb_eq, forallb_forall. split.
  - intros [H1 H2]. split; [lia|]. intros v Hv. specialize (H2 v Hv).
    destruct v; try discriminate. eexists; reflexivity.
  - intros [H1 H2]. split; [lia|]. intros v Hv.
    destruct (H2 v Hv) as [n ->]. reflexivity.
Qed.

(** X9: Reads of a populated grid: a coordinate of the enumerated cuboid reads a
    number, so the non-null assertion on [getCell] in the update loop is
    justified, and [getCell] is [null] exactly where [inBounds] fails. *)
Theorem getCell_populated (g : CellGrid.t) :
  populated g = true ->
  (forall x y z, inCuboid (CellGrid.dims g) x y z = true ->
                 exists n, CellGrid.getCell g x y z = JNum n) /\
  (forall x y z, CellGrid.getCell g x y z = JNull <->
                 GridDimensions.inBounds (CellGrid.dims g) x y z = false).
Proof.
  intros Hp. apply populated_iff in Hp. destruct Hp as [Hlen Hnum]. split.
  - intros x y z Hc. unfold CellGrid.getCell.
    rewrite (inCuboid_inBounds _ _ _ _ Hc). apply Hnum. apply get_inside.
    pose proof (indexOf_cuboid_range _ _ _ _ Hc). lia.
  - intros x y z. unfold CellGrid.getCell.
    destruct (GridDimensions.inBounds (CellGrid.dims g) x y z); split;
      try reflexivity; try discriminate.
    intros E. exfalso.
    destruct (get_In_or_undef (CellGrid.cells g)
                (GridDimensions.indexOf (CellGrid.dims g) x y z)) as [H|H].
    + congruence.
    + destruct (Hnum _ H) as [n Hn]. congruence.
Qed.

Lemma getCell_populated_witness :
  (exists n, CellGrid.getCell (grid111 1 2) 0 (-1) 0 = JNum n) /\
  CellGrid.getCell (grid111 1 2) 1 0 0 = JNull.
Proof.
  destruct (getCell_populated (grid111 1 2)) as [H1 H2]; [reflexivity|].
  split; [apply H1; reflexivity|apply H2; reflexivity].
Defined.

Lemma countLive_range (g : CellGrid.t) (l : list (Z * Z * Z)) :
  0 <= countLive g l <= Z.of_nat (length l).
Proof.
  unfold countLive.
  pose proof (filter_length_le (fun '(a, b, c) => CellGrid.isLive g a b c) l). lia.
Qed.

(** X10: The neighbour count is between 0 and 26, whatever the grid and the
    position. *)
Theorem neighbourPop_range (g : CellGrid.t) (x y z : Z) :
  0 <= CellGrid.neighbourPop g x y z <= 26.
Proof.
  rewrite neighbourPop_countLive.
  pose proof (countLive_range g (neighbours26 x y z)) as H.
  rewrite length_neighbours26 in H. exact H.
Qed.

(** X11: With two states or more a live cell is visible; with one state or fewer
    the live value is not positive, so a live cell is never visible. *)
Theorem isLive_isVisible (g : CellGrid.t) (x y z : Z) :
  CellGrid.isLive g x y z = true ->
  CellGrid.isVisible g x y z = (1 <? CellGrid.states g).
Proof.
  unfold CellGrid.isLive, CellGrid.isVisible.
  destruct (CellGrid.getCell g x y z) as [| |n]; cbn [notNullish looseEqNum gt andb];
    try discriminate.
  intros H. apply Z.eqb_eq in H.
  destruct (1 <? CellGrid.states g) eqn:E.
  - apply Z.ltb_lt in E. apply Z.gtb_lt. lia.
  - apply Z.ltb_ge in E. destruct (n >? 0) eqn:E'; [|reflexivity].
    apply Z.gtb_lt in E'. lia.
Qed.

Lemma isLive_isVisible_witness :
  CellGrid.isVisible (grid111 1 2) 0 0 0 = true /\
  CellGrid.isVisible (grid111 0 1) 0 0 0 = false.
Proof.
  split.
  - apply (isLive_isVisible (grid111 1 2) 0 0 0). reflexivity.
  - apply (isLive_isVisible (grid111 0 1) 0 0 0). reflexivity.
Defined.

Lemma get_repeat (v : jsval) (n : nat) (i : Z) :
  get (repeat v n) i = v \/ get (repeat v n) i = JUndef.
Proof.
  destruct (get_In_or_undef (repeat v n) i) as [H|H]; [right; assumption|].
  left. apply repeat_spec in H. assumption.
Qed.

(** X12: An empty grid shows nothing, and, unless it has a single state, has no
    live cell and a neighbour count of 0 everywhere; in a full grid every
    cell of the cuboid is visible.  Both constructors throw when [8XYZ] is
    negative. *)
Theorem makeEmpty_makeFull_cells (d : GridDimensions.t) (states : option Z) :
  (forall g, CellGrid.makeEmpty d states = Some g ->
     forall x y z,
       CellGrid.isVisible g x y z = false /\
       (CellGrid.default states 2 <> 1 ->
        CellGrid.isLive g x y z = false /\ CellGrid.neighbourPop g x y z = 0)) /\
  (forall g, CellGrid.makeFull d states = Some g ->
     forall x y z, inCuboid d x y z = true -> CellGrid.isVisible g x y z = true) /\
  (CellGrid.size d < 0 ->
   CellGrid.makeEmpty d states = None /\ CellGrid.makeFull d states = None).
Proof.
  unfold CellGrid.makeEmpty, CellGrid.makeFull, Array_new.
  destruct (CellGrid.size d <? 0) eqn:Es.
  { split; [intros g Hg; discriminate Hg|].
    split; [intros g Hg; discriminate Hg|].
    intros _. split; reflexivity. }
  apply Z.ltb_ge in Es. rewrite !fill_repeat.
  assert (Hempty : forall x y z,
            CellGrid.isVisible
              (CellGrid.new d (repeat (JNum 0) (Z.to_nat (CellGrid.size d)))
                            (Some (CellGrid.default states 2))) x y z = false).
  { intros x y z. unfold CellGrid.isVisible, CellGrid.getCell.
    cbn [CellGrid.new CellGrid.dims CellGrid.cells].
    destruct (GridDimensions.inBounds d x y z); [|reflexivity].
    destruct (get_repeat (JNum 0) (Z.to_nat (CellGrid.size d))
                         (GridDimensions.indexOf d x y z)) as [E|E];
      rewrite E; reflexivity. }
  assert (Hdead : CellGrid.default states 2 <> 1 -> forall x y z,
            CellGrid.isLive
              (CellGrid.new d (repeat (JNum 0) (Z.to_nat (CellGrid.size d)))
                            (Some (CellGrid.default states 2))) x y z = false).
  { intros Hs x y z. unfold CellGrid.isLive, CellGrid.getCell.
    cbn [CellGrid.new CellGrid.dims CellGrid.cells CellGrid.states].
    destruct (GridDimensions.inBounds d x y z); [|reflexivity].
    destruct (get_repeat (JNum 0) (Z.to_nat (CellGrid.size d))
                         (GridDimensions.indexOf d x y z)) as [E|E];
      rewrite E; cbn [notNullish looseEqNum andb]; [|reflexivity].
    apply Z.eqb_neq. lia. }
  split; [|split; [|intros Hneg; lia]].
  - intros g Hg. inversion Hg; subst g; clear Hg. intros x y z.
    split; [apply Hempty|]. intros Hs. split; [apply Hdead; assumption|].
    rewrite neighbourPop_countLive. apply countLive_none.
    intros a b c _. apply Hdead. assumption.
  - intros g Hg. inversion Hg; subst g; clear Hg. intros x y z Hc.
    unfold CellGrid.isVisible, CellGrid.getCell.
    cbn [CellGrid.new CellGrid.dims CellGrid.cells].
    rewrite (inCuboid_inBounds _ _ _ _ Hc).
    pose proof (indexOf_cuboid_range _ _ _ _ Hc) as Hr.
    unfold get. destruct (_ <? 0) eqn:E; [apply Z.ltb_lt in E; lia|].
    rewrite nth_repeat_lt by lia. reflexivity.
Qed.

Lemma makeEmpty_makeFull_cells_witness :
  CellGrid.isVisible (grid111 0 3) 0 0 0 = false /\
  CellGrid.neighbourPop (grid111 0 3) 0 0 0 = 0 /\
  CellGrid.isVisible (grid111 1 3) 0 0 0 = true /\
  CellGrid.makeEmpty (GridDimensions.make (-1) 1 1) None = None.
Proof.
  destruct (makeEmpty_makeFull_cells dims111 (Some 3)) as (He & Hf & _).
  destruct (makeEmpty_makeFull_cells (GridDimensions.make (-1) 1 1) None) as (_ & _ & Hn).
  destruct (He (grid111 0 3) eq_refl 0 0 0) as [H1 H2].
  split; [exact H1|]. split; [apply H2; cbn; lia|].
  split; [apply (Hf (grid111 1 3) eq_refl); reflexivity|].
  apply Hn. cbn. lia.
Defined.

(** ** GridState: the shape of an update *)

Lemma makeUpdated_arrays (old : GridState.t) (rules : GridState.rule) :
  positive (CellGrid.dims (GridState.grid old)) ->
  exists newCells newCore,
    GridState.makeUpdated old rules =
    Some (GridState.make
            (CellGrid.make (CellGrid.dims (GridState.grid old)) newCells
                           (CellGrid.states (GridState.grid old)))
            (GridState.grid old)
            (CellGrid.make (CellGrid.dims (GridState.grid old)) newCore 2)) /\
    Z.of_nat (length newCells) = CellGrid.size (CellGrid.dims (GridState.grid old)) /\
    Z.of_nat (length newCore) = CellGrid.size (CellGrid.dims (GridState.grid old)) /\
    forall x y z,
      inCuboid (CellGrid.dims (GridState.grid old)) x y z = true ->
      let v := rules (CellGrid.getCell (GridState.grid old) x y z)
                     (CellGrid.neighbourPop (GridState.grid old) x y z) in
      get newCells (GridDimensions.indexOf (CellGrid.dims (GridState.grid old)) x y z)
      = JNum v /\
      get newCore (GridDimensions.indexOf (CellGrid.dims (GridState.grid old)) x y z)
      = if (v >? 0) && CellGrid.isVisible (GridState.grid old) x y z
        then JNum 1 else JUndef.
Proof.
  intros Hpos.
  destruct (makeUpdated_returns old rules Hpos) as (newCells & newCore & Hfold & Hnew).
  set (g := GridState.grid old) in *. set (d := CellGrid.dims g) in *.
  assert (Hsize : 0 <= CellGrid.size d).
  { destruct Hpos as (HX & HY & HZ). unfold CellGrid.size.
    repeat apply Z.mul_nonneg_nonneg; lia. }
  assert (Hlen : Z.of_nat (length (repeat JUndef (Z.to_nat (CellGrid.size d))))
                 = CellGrid.size d) by (rewrite repeat_length; lia).
  destruct (fold_updateCell g rules (cuboid d) _ _
              (fun x y z H => proj1 (In_cuboid d x y z) H) Hlen Hlen)
    as (cells' & core' & Hfold' & L1 & L2 & Hget).
  pose proof (eq_trans (eq_sym Hfold') Hfold) as E. inversion E; subst cells' core'.
  exists newCells, newCore. split; [exact Hnew|].
  split; [lia|]. split; [lia|].
  intros x y z Hin. destruct (Hget x y z Hin) as [G1 G2]. fold d in G1, G2.
  destruct (in_dec coord_eq_dec (x, y, z) (cuboid d)) as [_|Hn];
    [|exfalso; apply Hn; apply In_cuboid; assumption].
  rewrite get_repeat_undef in G2. cbv zeta. split; assumption.
Qed.

Lemma get_nth (a : array) (i : nat) : get a (Z.of_nat i) = nth i a JUndef.
Proof.
  unfold get. destruct (Z.of_nat i <? 0) eqn:E; [apply Z.ltb_lt in E; lia|].
  rewrite Nat2Z.id. reflexivity.
Qed.

Lemma makeUpdated_populated (old : GridState.t) (rules : GridState.rule) :
  positive (CellGrid.dims (GridState.grid old)) ->
  exists new,
    GridState.makeUpdated old rules = Some new /\
    CellGrid.dims (GridState.grid new) = CellGrid.dims (GridState.grid old) /\
    CellGrid.states (GridState.grid new) = CellGrid.states (GridState.grid old) /\
    populated (GridState.grid new) = true.
Proof.
  intros Hpos.
  destruct (makeUpdated_arrays old rules Hpos)
    as (newCells & newCore & Hnew & L1 & L2 & Hget).
  eexists. split; [exact Hnew|].
  cbn [GridState.grid GridState.core CellGrid.dims CellGrid.states CellGrid.cells].
  split; [reflexivity|]. split; [reflexivity|].
  apply populated_iff. cbn [CellGrid.dims CellGrid.cells]. split; [exact L1|].
  intros v Hv. apply (In_nth _ _ JUndef) in Hv. destruct Hv as (i & Hi & <-).
  destruct (indexOf_cuboid_surj _ (Z.of_nat i) Hpos) as (x & y & z & Hc & Hx); [lia|].
  destruct (Hget x y z Hc) as [G _]. rewrite Hx, get_nth in G.
  eexists. exact G.
Qed.

(** X13: An update of a grid with positive half-extents returns a state whose
    new grid keeps the dimensions and the states count and is populated
    (all [8XYZ] slots hold a number, whatever the old cells were), and whose
    core has the same dimensions, two states and [8XYZ] slots, each 1 or a
    hole.  With [8XYZ] negative the update throws. *)
Theorem makeUpdated_shape (old : GridState.t) (rules : GridState.rule) :
  (positive (CellGrid.dims (GridState.grid old)) ->
   exists new,
     GridState.makeUpdated old rules = Some new /\
     CellGrid.dims (GridState.grid new) = CellGrid.dims (GridState.grid old) /\
     CellGrid.states (GridState.grid new) = CellGrid.states (GridState.grid old) /\
     populated (GridState.grid new) = true /\
     CellGrid.dims (GridState.core new) = CellGrid.dims (GridState.grid old) /\
     CellGrid.states (GridState.core new) = 2 /\
     Z.of_nat (length (CellGrid.cells (GridState.core new)))
     = CellGrid.size (CellGrid.dims (GridState.grid old)) /\
     forall v, In v (CellGrid.cells (GridState.core new)) -> v = JNum 1 \/ v = JUndef) /\
  (CellGrid.size (CellGrid.dims (GridState.grid old)) < 0 ->
   GridState.makeUpdated old rules = None).
Proof.
  split.
  - intros Hpos.
    destruct (makeUpdated_populated old rules Hpos) as (new & Hnew & D & S & P).
    destruct (makeUpdated_arrays old rules Hpos)
      as (newCells & newCore & Hnew' & L1 & L2 & Hget).
    exists new. split; [exact Hnew|]. split; [exact D|]. split; [exact S|].
    split; [exact P|].
    rewrite Hnew in Hnew'. inversion Hnew'; subst new; clear Hnew'.
    cbn [GridState.grid GridState.core CellGrid.dims CellGrid.states CellGrid.cells].
    split; [reflexivity|]. split; [reflexivity|]. split; [exact L2|].
    intros v Hv. apply (In_nth _ _ JUndef) in Hv. destruct Hv as (i & Hi & <-).
    destruct (indexOf_cuboid_surj _ (Z.of_nat i) Hpos) as (x & y & z & Hc & Hx); [lia|].
    destruct (Hget x y z Hc) as [_ G]. rewrite Hx, get_nth in G. rewrite G.
    destruct (_ && _); [left|right]; reflexivity.
  - intros Hs. unfold GridState.makeUpdated, Array_new.
    apply Z.ltb_lt in Hs. rewrite Hs. reflexivity.
Qed.

Lemma makeUpdated_shape_witness :
  (exists new,
     GridState.makeUpdated stateEmpty111 ruleSucc = Some new /\
     populated (GridState.grid new) = true /\
     CellGrid.states (GridState.core new) = 2) /\
  GridState.makeUpdated
    (GridState.makeFromGrid (CellGrid.make (GridDimensions.make (-1) 1 1) [] 2))
    ruleSucc = None.
Proof.
  destruct (makeUpdated_shape stateEmpty111 ruleSucc) as [H _].
  destruct H as (new & H1 & _ & _ & H2 & _ & H3 & _); [unfold positive; cbn; lia|].
  destruct (makeUpdated_shape
              (GridState.makeFromGrid (CellGrid.make (GridDimensions.make (-1) 1 1) [] 2))
              ruleSucc) as [_ H'].
  split; [exists new; repeat split; assumption|].
  apply H'. cbn. lia.
Defined.

(** X14: After an update the core is the intersection of what was visible and
    what is visible: on the enumerated cuboid a core cell is visible exactly
    when the cell is visible in the old grid and in the new grid. *)
Theorem core_visible_both (old new : GridState.t) (rules : GridState.rule) (x y z : Z) :
  GridState.makeUpdated old rules = Some new ->
  inCuboid (CellGrid.dims (GridState.grid old)) x y z = true ->
  CellGrid.isVisible (GridState.core new) x y z
  = CellGrid.isVisible (GridState.oldGrid new) x y z
    && CellGrid.isVisible (GridState.grid new) x y z.
Proof.
  intros Hnew Hc.
  destruct (makeUpdated_arrays old rules (inCuboid_positive _ _ _ _ Hc))
    as (newCells & newCore & Hnew' & _ & _ & Hget).
  rewrite Hnew in Hnew'. inversion Hnew'; subst new; clear Hnew'.
  destruct (Hget x y z Hc) as [G1 G2]. cbv zeta in G1, G2.
  unfold CellGrid.isVisible at 1 3. unfold CellGrid.getCell.
  cbn [GridState.grid GridState.core GridState.oldGrid CellGrid.dims CellGrid.cells].
  rewrite (inCuboid_inBounds _ _ _ _ Hc), G1, G2.
  cbn [notNullish gt andb].
  destruct (_ >? 0); destruct (CellGrid.isVisible (GridState.grid old) x y z);
    reflexivity.
Qed.

Lemma core_visible_both_witness :
  exists new,
    GridState.makeUpdated stateFull111 ruleCount = Some new /\
    CellGrid.isVisible (GridState.core new) 0 0 0
    = CellGrid.isVisible (GridState.oldGrid new) 0 0 0
      && CellGrid.isVisible (GridState.grid new) 0 0 0.
Proof.
  destruct (GridState.makeUpdated stateFull111 ruleCount) as [new|] eqn:E;
    [|discriminate E].
  exists new. split; [reflexivity|].
  apply (core_visible_both stateFull111 new ruleCount 0 0 0 E). reflexivity.
Defined.

(** X15: Updates chain: from a grid with positive half-extents any number of
    successive updates returns a state, with the dimensions and states count
    of the first grid, and populated after the first update. *)
Theorem chainUpdates_returns (rules : GridState.rule) (n : nat) (s : GridState.t) :
  positive (CellGrid.dims (GridState.grid s)) ->
  exists s',
    chainUpdates rules n s = Some s' /\
    CellGrid.dims (GridState.grid s') = CellGrid.dims (GridState.grid s) /\
    CellGrid.states (GridState.grid s') = CellGrid.states (GridState.grid s) /\
    ((0 < n)%nat -> populated (GridState.grid s') = true).
Proof.
  revert s. induction n as [|n IH]; intros s Hpos.
  - exists s. repeat split; try reflexivity. lia.
  - destruct (makeUpdated_populated s rules Hpos) as (s1 & E1 & D1 & S1 & P1).
    cbn [chainUpdates]. rewrite E1.
    destruct (IH s1) as (s' & E' & D' & S' & P'); [rewrite D1; assumption|].
    exists s'. split; [exact E'|]. split; [congruence|]. split; [congruence|].
    intros _. destruct n as [|n']; [|apply P'; lia].
    cbn [chainUpdates] in E'. inversion E'; subst s'. exact P1.
Qed.

Lemma chainUpdates_returns_witness :
  exists s',
    chainUpdates ruleSucc 3 stateEmpty111 = Some s' /\
    CellGrid.dims (GridState.grid s') = dims111.
Proof.
  destruct (chainUpdates_returns ruleSucc 3 stateEmpty111) as (s' & H1 & H2 & _);
    [unfold positive; cbn; lia|].
  exists s'. split; [exact H1|exact H2].
Defined.

(** ** Face: ambient occlusion, culling, geometry *)

Lemma isVisible_all_zero (d : GridDimensions.t) (n : nat) (states x y z : Z) :
  CellGrid.isVisible (CellGrid.make d (repeat (JNum 0) n) states) x y z = false.
Proof.
  unfold CellGrid.isVisible, CellGrid.getCell. cbn [CellGrid.dims CellGrid.cells].
  destruct (GridDimensions.inBounds d x y z); [|reflexivity].
  destruct (get_repeat (JNum 0) n (GridDimensions.indexOf d x y z)) as [E|E];
    rewrite E; reflexivity.
Qed.

Lemma vertexAO_level (side1 side2 corner : bool) :
  aoLevel (Face.vertexAO side1 side2 corner).
Proof. destruct side1, side2, corner; cbn; unfold aoLevel; tauto. Qed.

Lemma sideAOs_levels (adj : list bool) : aos4_levels (Face.sideAOs adj).
Proof.
  unfold Face.sideAOs. destruct (negb _).
  - cbn. unfold aoLevel. tauto.
  - cbn [aos4_levels]. repeat split; apply vertexAO_level.
Qed.

(** X16: Every AO value of a face is one of 1/4, 1/2, 3/4, 1; a vertex is fully
    lit (1) exactly when none of its three neighbour cells occludes, the two
    sides count alike, and a face none of whose 26 surrounding positions is
    visible has AO (1, 1, 1, 1). *)
Theorem faceAOs_levels (g : CellGrid.t) (x y z : Z) (side : Face.SIDE) :
  aos4_levels (Face.faceAOs g x y z side) /\
  (forall s1 s2 c, Face.vertexAO s1 s2 c = Face.vertexAO s2 s1 c) /\
  (forall s1 s2 c, Face.vertexAO s1 s2 c = 1%Q <-> s1 = false /\ s2 = false /\ c = false) /\
  ((forall a b c, chebyshev (a, b, c) (x, y, z) = 1 -> CellGrid.isVisible g a b c = false) ->
   Face.faceAOs g x y z side = (1, 1, 1, 1)%Q).
Proof.
  split; [unfold Face.faceAOs; destruct side; apply sideAOs_levels|].
  split; [intros [] [] []; reflexivity|].
  split.
  - intros [] [] []; cbn; split; try discriminate; try tauto;
      intros (H1 & H2 & H3); discriminate.
  - intros H. unfold Face.faceAOs.
    destruct side; rewrite !H by (unfold chebyshev; lia); reflexivity.
Qed.

Lemma faceAOs_levels_witness :
  Face.faceAOs (grid111 0 2) 0 0 0 Face.YPOS = (1, 1, 1, 1)%Q.
Proof.
  apply (faceAOs_levels (grid111 0 2) 0 0 0 Face.YPOS).
  intros a b c _. apply isVisible_all_zero.
Defined.

Lemma keptByCulling_iff (cullGrid : CellGrid.t) (x y z : Z) (side : Face.SIDE) :
  In side (keptByCulling cullGrid x y z) <->
  CellGrid.isVisible cullGrid x y z = true /\ exposed cullGrid x y z side = true.
Proof.
  unfold keptByCulling, exposed.
  destruct (CellGrid.isVisible cullGrid x y z).
  - rewrite filter_In. unfold orientations. split.
    + intros [_ H]. split; [reflexivity|exact H].
    + intros [_ H]. split; [destruct side; cbn; tauto|exact H].
  - cbn. split; [contradiction|intros [H _]; discriminate].
Qed.

Lemma NoDup_keptByCulling (cullGrid : CellGrid.t) (x y z : Z) :
  NoDup (keptByCulling cullGrid x y z).
Proof.
  unfold keptByCulling. destruct (CellGrid.isVisible cullGrid x y z); [|constructor].
  apply NoDup_filter. unfold orientations.
  repeat (constructor; [cbn; intros H; repeat (destruct H as [H|H]; [discriminate|]); exact H|]).
  constructor.
Qed.

Lemma length_keptByCulling (cullGrid : CellGrid.t) (x y z : Z) :
  (length (keptByCulling cullGrid x y z) <= 3)%nat.
Proof.
  unfold keptByCulling. destruct (CellGrid.isVisible cullGrid x y z); [|cbn; lia].
  apply (filter_length_le _ orientations).
Qed.

Lemma Face_makeFromCell_default (cullGrid : CellGrid.t) (x y z : Z) :
  Face.makeFromCell cullGrid x y z None = Face.makeFromCell cullGrid x y z (Some cullGrid).
Proof. reflexivity. Qed.

(** X17: The faces of a cell after culling: at most three, none for a cell that
    is not visible, and exactly one per side whose outward neighbour is not
    visible in the culling grid, each at the cell and shaded by the AO grid
    (the culling grid when none is given). *)
Theorem Face_makeFromCell_exposed
        (cullGrid : CellGrid.t) (x y z : Z) (aoGrid : option CellGrid.t) :
  let ao := match aoGrid with Some g => g | None => cullGrid end in
  let faces := Face.makeFromCell cullGrid x y z aoGrid in
  (length faces <= 3)%nat /\
  NoDup (map Face.side faces) /\
  (CellGrid.isVisible cullGrid x y z = false -> faces = []) /\
  (forall f, In f faces ->
             f = Face.make x y z (Face.side f) (Face.faceAOs ao x y z (Face.side f))) /\
  (forall side,
      In side (map Face.side faces) <->
      CellGrid.isVisible cullGrid x y z = true /\ exposed cullGrid x y z side = true).
Proof.
  intros ao faces.
  assert (E : faces = map (faceOf ao x y z) (keptByCulling cullGrid x y z)).
  { unfold faces, ao. destruct aoGrid as [g|];
      [|rewrite Face_makeFromCell_default]; apply Face_makeFromCell_kept. }
  assert (Es : map Face.side faces = keptByCulling cullGrid x y z).
  { rewrite E, map_map. unfold faceOf. cbn [Face.side]. apply map_id. }
  rewrite Es. split; [rewrite E, length_map; apply length_keptByCulling|].
  split; [apply NoDup_keptByCulling|]. split.
  - intros H. rewrite E. unfold keptByCulling. rewrite H. reflexivity.
  - split; [|apply keptByCulling_iff].
    intros f Hf. rewrite E in Hf. apply in_map_iff in Hf.
    destruct Hf as (side & <- & _). reflexivity.
Qed.

Lemma Face_makeFromCell_exposed_witness :
  Face.makeFromCell (grid111 0 2) 0 0 0 None = [] /\
  In Face.YPOS (map Face.side (Face.makeFromCell (grid111 1 2) 0 0 0 None)).
Proof.
  destruct (Face_makeFromCell_exposed (grid111 0 2) 0 0 0 None) as (_ & _ & H0 & _).
  destruct (Face_makeFromCell_exposed (grid111 1 2) 0 0 0 None) as (_ & _ & _ & _ & H1).
  split; [apply H0; reflexivity|apply H1; split; reflexivity].
Defined.

(** X18: The four vertices of a face lie in the plane at distance [scale / 2]
    from the voxel position along the face normal, each at [scale / 2] from
    the position on every axis; with scale 0 they all coincide with the
    voxel position.  The default scale is 1. *)
Theorem Face_getVertices_square (f : Face.t) (scale : Q) :
  length (Face.getVertices f (Some scale)) = 4%nat /\
  Face.getVertices f None = Face.getVertices f (Some 1%Q) /\
  (forall vx vy vz, In (vx, vy, vz) (Face.getVertices f (Some scale)) ->
     let '(nx, ny, nz) := Face.getNorm f in
     let dx := (vx - inject_Z (Face.x f))%Q in
     let dy := (vy - inject_Z (Face.y f))%Q in
     let dz := (vz - inject_Z (Face.z f))%Q in
     (dx * inject_Z nx + dy * inject_Z ny + dz * inject_Z nz == scale * (1 # 2))%Q /\
     (dx * dx == scale * scale * (1 # 4))%Q /\
     (dy * dy == scale * scale * (1 # 4))%Q /\
     (dz * dz == scale * scale * (1 # 4))%Q) /\
  (scale == 0 ->
   forall v, In v (Face.getVertices f (Some scale)) ->
             q3_eq v (Z3_inject (Face.x f, Face.y f, Face.z f))).
Proof.
  split; [apply length_Face_getVertices|]. split; [reflexivity|].
  destruct f as [x y z side aos].
  unfold Face.getVertices, Face.getNorm, Face.direction.
  cbn [Face.x Face.y Face.z Face.side]. split.
  - intros vx vy vz H.
    destruct side; cbn [Face.SIDE_value Face.relPositions Face.directions nth map In] in *;
      repeat (destruct H as [H|H]; [inversion H; subst; clear H|]);
      try contradiction; cbv zeta; repeat split; unfold inject_Z; ring.
  - intros Hs v H.
    destruct side; cbn [Face.SIDE_value Face.relPositions nth map In] in *;
      repeat (destruct H as [H|H]; [subst v|]);
      try contradiction; cbn [q3_eq Z3_inject]; rewrite Hs; repeat split; ring.
Qed.

Lemma Face_getVertices_square_witness :
  q3_eq (nth 0 (Face.getVertices (Face.make 1 2 3 Face.XNEG (1, 1, 1, 1)%Q) (Some 0%Q))
             (0, 0, 0)%Q)
        (Z3_inject (1, 2, 3)).
Proof.
  destruct (Face_getVertices_square (Face.make 1 2 3 Face.XNEG (1, 1, 1, 1)%Q) 0)
    as (_ & _ & _ & H).
  apply H; [reflexivity|]. left. reflexivity.
Defined.

(** X19: The six indices of a face are two triangles on the four vertices
    [offset .. offset + 3], which together use all four; the triangles share
    the diagonal of vertices 1 and 2 when the AO sum of these two exceeds
    that of vertices 0 and 3, and the diagonal of vertices 0 and 3 otherwise
    (also on a tie). *)
Theorem Face_getIndices_triangles (f : Face.t) (offset : Z) :
  let '(a0, a1, a2, a3) := Face.aos f in
  let indices := Face.getIndices f offset in
  length indices = 6%nat /\
  (forall i, In i indices <-> offset <= i <= offset + 3) /\
  NoDup (firstn 3 indices) /\ NoDup (skipn 3 indices) /\
  (forall i, In i (firstn 3 indices) /\ In i (skipn 3 indices) <->
             if Qle_bool (a1 + a2)%Q (a0 + a3)%Q
             then i = offset \/ i = offset + 3
             else i = offset + 1 \/ i = offset + 2).
Proof.
  unfold Face.getIndices. destruct (Face.aos f) as [[[a0 a1] a2] a3].
  destruct (Qle_bool (a1 + a2)%Q (a0 + a3)%Q); cbn [negb length firstn skipn In].
  - split; [reflexivity|]. split; [intros i; lia|].
    split; [repeat (constructor; [cbn [In]; lia|]); constructor|].
    split; [repeat (constructor; [cbn [In]; lia|]); constructor|].
    intros i; lia.
  - split; [reflexivity|]. split; [intros i; lia|].
    split; [repeat (constructor; [cbn [In]; lia|]); constructor|].
    split; [repeat (constructor; [cbn [In]; lia|]); constructor|].
    intros i; lia.
Qed.

(** ** AnimFace: building the faces of a state *)

(** X20: A state made from a single grid animates nothing: the faces of a cell
    are the culled faces of the grid, each an AO_ONLY face from a face to
    itself. *)
Theorem makeFromCell_transitionless (g : CellGrid.t) (x y z : Z) :
  AnimFace.makeFromCell (GridState.makeFromGrid g) x y z
  = map (fun face => AnimFace.make (Some face) (Some face) AnimFace.AO_ONLY)
        (Face.makeFromCell g x y z None).
Proof.
  unfold AnimFace.makeFromCell, GridState.makeFromGrid.
  cbn [GridState.grid GridState.oldGrid GridState.core].
  destruct (CellGrid.isVisible g x y z) eqn:E; cbn [negb andb].
  - pose proof (transition_faces_paired (GridState.make g g g) x y z) as H.
    cbn [GridState.grid GridState.oldGrid GridState.core] in H. rewrite H.
    rewrite Face_makeFromCell_default, Face_makeFromCell_kept, map_map. reflexivity.
  - unfold Face.makeFromCell. rewrite E. reflexivity.
Qed.

Lemma length_makeFromCell (state : GridState.t) (x y z : Z) :
  (length (AnimFace.makeFromCell state x y z) <= 3)%nat.
Proof.
  unfold AnimFace.makeFromCell.
  destruct (CellGrid.isVisible (GridState.oldGrid state) x y z),
           (CellGrid.isVisible (GridState.grid state) x y z); cbn [negb andb].
  - rewrite transition_faces_paired, length_map. apply length_keptByCulling.
  - unfold Face.makeAllFromCell. rewrite !length_map. cbn. lia.
  - unfold Face.makeAllFromCell. rewrite !length_map. cbn. lia.
  - cbn. lia.
Qed.

Lemma voxelOf_makeFromCell (state : GridState.t) (x y z : Z) (f : AnimFace.t) :
  In f (AnimFace.makeFromCell state x y z) -> voxelOf f = Some (x, y, z).
Proof.
  unfold AnimFace.makeFromCell.
  destruct (CellGrid.isVisible (GridState.oldGrid state) x y z),
           (CellGrid.isVisible (GridState.grid state) x y z); cbn [negb andb].
  - rewrite transition_faces_paired. intros H.
    apply in_map_iff in H. destruct H as (side & <- & _). reflexivity.
  - unfold Face.makeAllFromCell. rewrite map_map. intros H.
    apply in_map_iff in H. destruct H as (side & <- & _). reflexivity.
  - unfold Face.makeAllFromCell. rewrite map_map. intros H.
    apply in_map_iff in H. destruct H as (side & <- & _). reflexivity.
  - contradiction.
Qed.

Lemma length_flat_map_le {A B : Type} (F : A -> list B) (l : list A) (k : nat) :
  (forall a, (length (F a) <= k)%nat) ->
  (length (flat_map F l) <= k * length l)%nat.
Proof.
  intros H. induction l as [|a l IH]; cbn [flat_map length]; [lia|].
  rewrite length_app. specialize (H a). lia.
Qed.

(** X21: The faces of a state with positive half-extents are those of its cells
    in the nested order of the cuboid; there are at most three per cell, and
    each belongs to a voxel of the cuboid. *)
Theorem makeFromGridState_cuboid (state : GridState.t) :
  positive (CellGrid.dims (GridState.grid state)) ->
  AnimFace.makeFromGridState state
  = flat_map (fun '(x, y, z) => AnimFace.makeFromCell state x y z)
             (cuboid (CellGrid.dims (GridState.grid state))) /\
  Z.of_nat (length (AnimFace.makeFromGridState state))
  <= 3 * CellGrid.size (CellGrid.dims (GridState.grid state)) /\
  (forall f, In f (AnimFace.makeFromGridState state) ->
             exists x y z,
               voxelOf f = Some (x, y, z) /\
               inCuboid (CellGrid.dims (GridState.grid state)) x y z = true).
Proof.
  intros Hpos. rewrite makeFromGridState_flat_map, coords_cuboid by assumption.
  split; [reflexivity|]. split.
  - pose proof (length_flat_map_le
                  (fun '(x, y, z) => AnimFace.makeFromCell state x y z)
                  (cuboid (CellGrid.dims (GridState.grid state))) 3) as H.
    assert (Hl : Z.of_nat (length (cuboid (CellGrid.dims (GridState.grid state))))
                 = CellGrid.size (CellGrid.dims (GridState.grid state))).
    { rewrite <- (length_map (fun '(a, b, c) =>
                     GridDimensions.indexOf (CellGrid.dims (GridState.grid state)) a b c)).
      rewrite map_indexOf_cuboid by assumption. rewrite length_zrange.
      destruct Hpos as (HX & HY & HZ).
      assert (0 <= CellGrid.size (CellGrid.dims (GridState.grid state)))
        by (unfold CellGrid.size; repeat apply Z.mul_nonneg_nonneg; lia).
      lia. }
    assert (H' : (length (flat_map (fun '(x, y, z) => AnimFace.makeFromCell state x y z)
                            (cuboid (CellGrid.dims (GridState.grid state))))
                  <= 3 * length (cuboid (CellGrid.dims (GridState.grid state))))%nat).
    { apply H. intros [[x y] z]. apply length_makeFromCell. }
    lia.
  - intros f Hf. apply in_flat_map in Hf. destruct Hf as ([[x y] z] & Hc & Hf).
    exists x, y, z. split; [apply (voxelOf_makeFromCell state x y z f Hf)|].
    apply In_cuboid. assumption.
Qed.

Lemma makeFromGridState_cuboid_witness :
  Z.of_nat (length (AnimFace.makeFromGridState stateFull111)) <= 3 * CellGrid.size dims111.
Proof.
  apply (makeFromGridState_cuboid stateFull111). unfold positive; cbn; lia.
Defined.

(** ** AnimFace: ambient occlusion at the ends of the animation *)

(** X22: The AO values of an animated face start at the AO of its start
    face (all ones for a growing face) and end at the AO of its end face
    (all ones for a shrinking face): they are the first at progress 0 or
    less and the second at progress 1 or more; a face without the endpoint
    its type needs throws. *)
Theorem getAOs_endpoints (f : AnimFace.t) (progress : Q) :
  match aoEndpoints f, AnimFace.getAOs f (Some progress) with
  | Some (a, b), Some v =>
      ((progress <= 0)%Q -> aos4_eq v a) /\
      ((1 <= progress)%Q -> aos4_eq v b)
  | None, None => True
  | _, _ => False
  end.
Proof.
  assert (Hlow : (progress <= 0)%Q -> (Utils.smoothStep progress <= 0)%Q)
    by (intros H; rewrite (smoothStep_low progress H); lra).
  assert (Hhigh : (1 <= progress)%Q -> (1 <= Utils.smoothStep progress)%Q)
    by (intros H; rewrite (smoothStep_high progress H); lra).
  unfold aoEndpoints, AnimFace.getAOs. cbn [AnimFace.defaultProgress].
  destruct (AnimFace.type f), (AnimFace.start f) as [[? ? ? ? [[[s0 s1] s2] s3]]|],
    (AnimFace.end_ f) as [[? ? ? ? [[[e0 e1] e2] e3]]|];
    cbn [option_map Face.aos]; try exact I;
    unfold aos4_eq, Utils.mix4;
    (split; intros H;
     [repeat split; apply mix_smooth_low; auto
     |repeat split; apply mix_smooth_high; auto]).
Qed.

Lemma getAOs_endpoints_witness :
  match AnimFace.getAOs growHalf (Some 2%Q) with
  | Some v => aos4_eq v (1 # 2, 1 # 2, 1 # 2, 1 # 2)%Q
  | None => False
  end.
Proof.
  pose proof (getAOs_endpoints growHalf 2) as H.
  cbn [aoEndpoints growHalf AnimFace.makeGrowing AnimFace.type AnimFace.end_
       option_map Face.aos] in H.
  destruct (AnimFace.getAOs growHalf (Some 2%Q)) as [v|]; [|exact H].
  apply H. lra.
Defined.

(** ** AnimFace: vertices at the ends of the animation *)

Lemma Face_getVertices_scale (face : Face.t) (s s' : Q) :
  s == s' -> verts_eq (Face.getVertices face (Some s)) (Face.getVertices face (Some s')).
Proof.
  intros H. unfold verts_eq, Face.getVertices.
  destruct (Face.side face); cbn [Face.SIDE_value Face.relPositions nth map];
    repeat constructor; rewrite H; reflexivity.
Qed.

Lemma Face_getVertices_collapsed (face : Face.t) (s : Q) :
  s == 0 -> collapsed face (Face.getVertices face (Some s)).
Proof.
  intros H. unfold collapsed, Face.getVertices.
  destruct (Face.side face); cbn [Face.SIDE_value Face.relPositions nth map Z3_inject];
    repeat constructor; cbn [q3_eq]; rewrite H; repeat split; ring.
Qed.

Section VerticesEnds.

Variable cos : Q -> Q.

(** X23: The vertices of an animated face at the ends of its animation, for any
    cosine function: a growing face is the full-size end face from progress
    1 on; a shrinking face is the full-size start face up to progress 0 and
    is collapsed onto its voxel position from progress 1/2 on; an AO_ONLY
    face is the start face at every progress; a TRANSITION face is the start
    face up to progress 0 and the end face from progress 1 on.  With a
    cosine that is 1 at 0, a growing face is collapsed at progress 0. *)
Theorem getVertices_endpoints (f : AnimFace.t) (s e : Face.t) (progress : Q) :
  (AnimFace.type f = AnimFace.GROW -> AnimFace.end_ f = Some e ->
   exists verts,
     AnimFace.getVertices cos f (Some progress) = Some verts /\
     ((1 <= progress)%Q -> verts_eq verts (Face.getVertices e None)) /\
     ((forall q, q == 0 -> cos q == 1) -> progress == 0 -> collapsed e verts)) /\
  (AnimFace.type f = AnimFace.SHRINK -> AnimFace.start f = Some s ->
   exists verts,
     AnimFace.getVertices cos f (Some progress) = Some verts /\
     ((progress <= 0)%Q -> verts_eq verts (Face.getVertices s None)) /\
     ((1 # 2 <= progress)%Q -> collapsed s verts)) /\
  (AnimFace.type f = AnimFace.AO_ONLY -> AnimFace.start f = Some s ->
   AnimFace.getVertices cos f (Some progress) = Some (Face.getVertices s None)) /\
  (AnimFace.type f = AnimFace.TRANSITION ->
   AnimFace.start f = Some s -> AnimFace.end_ f = Some e ->
   exists verts,
     AnimFace.getVertices cos f (Some progress) = Some verts /\
     ((progress <= 0)%Q -> verts_eq verts (Face.getVertices s None)) /\
     ((1 <= progress)%Q -> verts_eq verts (Face.getVertices e None))).
Proof.
  unfold AnimFace.getVertices. cbn [AnimFace.defaultProgress].
  split; [|split; [|split]].
  - intros Ht He. rewrite Ht, He. eexists. split; [reflexivity|]. split.
    + intros H. apply (Face_getVertices_scale e _ 1).
      unfold Utils.mix. rewrite (smoothStep_high progress H). ring.
    + intros Hcos H. apply Face_getVertices_collapsed.
      assert (Hs : Utils.smoothStep progress == 0) by (apply smoothStep_low; lra).
      assert (Hc : cos (10 * progress * progress)%Q == 1).
      { apply Hcos. rewrite H. ring. }
      unfold Utils.mix. rewrite Hs, Hc. ring.
  - intros Ht Hs. rewrite Ht, Hs. eexists. split; [reflexivity|]. split.
    + intros H. apply (Face_getVertices_scale s _ 1).
      rewrite (smoothStep_low (2 * progress)%Q) by lra. ring.
    + intros H. apply Face_getVertices_collapsed.
      rewrite (smoothStep_high (2 * progress)%Q) by lra. ring.
  - intros Ht Hs. rewrite Ht, Hs. reflexivity.
  - intros Ht Hs He. rewrite Ht, Hs, He.
    assert (Hlow : (progress <= 0)%Q -> (Utils.smoothStep progress <= 0)%Q)
      by (intros H; rewrite (smoothStep_low progress H); lra).
    assert (Hhigh : (1 <= progress)%Q -> (1 <= Utils.smoothStep progress)%Q)
      by (intros H; rewrite (smoothStep_high progress H); lra).
    unfold Face.getVertices, verts_eq.
    destruct (Face.side s), (Face.side e);
      cbn [Face.SIDE_value Face.relPositions nth map AnimFace.mapiM_from nth_error
           Utils.mix3];
      (eexists; split; [reflexivity|]);
      (split; intros H;
       [repeat constructor; apply mix_smooth_low; auto
       |repeat constructor; apply mix_smooth_high; auto]).
Qed.

End VerticesEnds.

Lemma getVertices_endpoints_witness :
  exists verts,
    AnimFace.getVertices (fun _ => 1%Q) growHalf (Some 1%Q) = Some verts /\
    verts_eq verts (Face.getVertices (Face.make 0 0 0 Face.XNEG (1 # 2, 1 # 2, 1 # 2, 1 # 2)%Q)
                                     None).
Proof.
  destruct (getVertices_endpoints
              (fun _ => 1%Q) growHalf
              (Face.make 0 0 0 Face.XNEG (1 # 2, 1 # 2, 1 # 2, 1 # 2)%Q)
              (Face.make 0 0 0 Face.XNEG (1 # 2, 1 # 2, 1 # 2, 1 # 2)%Q) 1)
    as (H & _).
  destruct (H eq_refl eq_refl) as (verts & H1 & H2 & _).
  exists verts. split; [exact H1|]. apply H2. lra.
Defined.

(** ** main.ts: the rule *)

Lemma rules_no_neighbour (current : jsval) : Main.rules current 0 = 0.
Proof.
  unfold Main.rules. cbn [Z.geb Z.leb Z.eqb Z.compare andb].
  rewrite !andb_false_r. reflexivity.
Qed.

Lemma rules_binary (current : jsval) (neighbours : Z) :
  Main.rules current neighbours = 0 \/ Main.rules current neighbours = 1.
Proof. unfold Main.rules. destruct (_ || _); [right|left]; reflexivity. Qed.

(** X24: One update with the rule of [main.ts] on a grid with positive
    half-extents leaves only the states 0 and 1, and a grid without any
    live position dies out: every cell of the cuboid becomes 0. *)
Theorem rules_update (old new : GridState.t) :
  positive (CellGrid.dims (GridState.grid old)) ->
  GridState.makeUpdated old Main.rules = Some new ->
  (forall v, In v (CellGrid.cells (GridState.grid new)) -> v = JNum 0 \/ v = JNum 1) /\
  ((forall a b c, CellGrid.isLive (GridState.grid old) a b c = false) ->
   forall x y z, inCuboid (CellGrid.dims (GridState.grid old)) x y z = true ->
                 CellGrid.getCell (GridState.grid new) x y z = JNum 0).
Proof.
  intros Hpos Hnew.
  destruct (makeUpdated_arrays old Main.rules Hpos)
    as (newCells & newCore & Hnew' & L1 & L2 & Hget).
  rewrite Hnew in Hnew'. inversion Hnew'; subst new; clear Hnew'.
  cbn [GridState.grid CellGrid.cells CellGrid.dims]. split.
  - intros v Hv. apply (In_nth _ _ JUndef) in Hv. destruct Hv as (i & Hi & <-).
    destruct (indexOf_cuboid_surj _ (Z.of_nat i) Hpos) as (x & y & z & Hc & Hx); [lia|].
    destruct (Hget x y z Hc) as [G _]. rewrite Hx, get_nth in G. rewrite G.
    destruct (rules_binary (CellGrid.getCell (GridState.grid old) x y z)
                           (CellGrid.neighbourPop (GridState.grid old) x y z)) as [E|E];
      rewrite E; [left|right]; reflexivity.
  - intros Hdead x y z Hc. destruct (Hget x y z Hc) as [G _].
    unfold CellGrid.getCell. cbn [CellGrid.dims CellGrid.cells].
    rewrite (inCuboid_inBounds _ _ _ _ Hc), G.
    rewrite neighbourPop_countLive, countLive_none by (intros; apply Hdead).
    rewrite rules_no_neighbour. reflexivity.
Qed.

Lemma rules_update_witness :
  exists new,
    GridState.makeUpdated stateEmpty111 Main.rules = Some new /\
    CellGrid.getCell (GridState.grid new) 0 0 0 = JNum 0.
Proof.
  destruct (GridState.makeUpdated stateEmpty111 Main.rules) as [new|] eqn:E;
    [|discriminate E].
  exists new. split; [reflexivity|].
  destruct (rules_update stateEmpty111 new) as [_ H].
  - unfold positive; cbn; lia.
  - exact E.
  - apply H; [|reflexivity].
    intros a b c. destruct (CellGrid.isLive (GridState.grid stateEmpty111) a b c) eqn:El;
      [|reflexivity].
    pose proof (isVisible_all_zero dims111 8 2 a b c) as Hv.
    unfold CellGrid.isLive, CellGrid.isVisible in *.
    change (GridState.grid stateEmpty111) with (CellGrid.make dims111 (repeat (JNum 0) 8) 2) in El.
    destruct (CellGrid.getCell (CellGrid.make dims111 (repeat (JNum 0) 8) 2) a b c)
      as [| |n]; try discriminate El.
    cbn [notNullish looseEqNum gt andb CellGrid.states] in *.
    apply Z.eqb_eq in El. subst n. discriminate Hv.
Defined.

(** X25: The progress handed to the getters is at most 1; it is not negative
    when time has not run backwards, and it is 1 once the animation duration
    has elapsed. *)
Theorem progress_unit (now prev duration : Q) :
  (Main.progress now prev duration <= 1)%Q /\
  ((0 < duration)%Q -> (prev <= now)%Q -> (0 <= Main.progress now prev duration)%Q) /\
  ((0 < duration)%Q -> (prev + duration <= now)%Q -> Main.progress now prev duration == 1).
Proof.
  unfold Main.progress. split; [apply Q.le_min_r|]. split.
  - intros Hd Hn. apply Q.min_glb; [|lra].
    apply Qle_shift_div_l; [assumption|]. lra.
  - intros Hd Hn. apply Q.min_r.
    apply Qle_shift_div_l; [assumption|]. lra.
Qed.

Lemma progress_unit_witness :
  (0 <= Main.progress 1250 1000 500)%Q /\ Main.progress 2000 1000 500 == 1.
Proof.
  destruct (progress_unit 1250 1000 500) as (_ & H1 & _).
  destruct (progress_unit 2000 1000 500) as (_ & _ & H2).
  split; [apply H1; lra|apply H2; lra].
Defined.

(** ** main.ts: the data of a frame *)

Lemma flatMapM_length {A B : Type} (f : A -> option (list B)) (l : list A) (k : nat) :
  (forall a, In a l -> exists bs, f a = Some bs /\ length bs = k) ->
  exists r, Main.flatMapM f l = Some r /\ length r = (k * length l)%nat.
Proof.
  induction l as [|a l IH]; intros H.
  - exists []. split; [reflexivity|cbn; lia].
  - destruct (H a (or_introl eq_refl)) as (bs & Ea & La).
    destruct IH as (r & Er & Lr); [intros a' Ha'; apply H; right; assumption|].
    exists (bs ++ r). cbn [Main.flatMapM]. rewrite Ea, Er.
    split; [reflexivity|]. rewrite length_app. cbn [length]. lia.
Qed.

Lemma flatMapiM_from_range {A : Type} (f : A -> nat -> option (list Z))
      (l : list A) (n : nat) :
  (forall a i, In a l ->
     exists bs, f a i = Some bs /\ length bs = 6%nat /\
                forall x, In x bs -> Z.of_nat i * 4 <= x <= Z.of_nat i * 4 + 3) ->
  exists r,
    Main.flatMapiM_from n f l = Some r /\
    length r = (6 * length l)%nat /\
    forall x, In x r -> Z.of_nat n * 4 <= x < (Z.of_nat n + Z.of_nat (length l)) * 4.
Proof.
  revert n. induction l as [|a l IH]; intros n H.
  - exists []. split; [reflexivity|]. split; [reflexivity|]. contradiction.
  - destruct (H a n (or_introl eq_refl)) as (bs & Ea & La & Ra).
    destruct (IH (S n)) as (r & Er & Lr & Rr);
      [intros a' i Ha'; apply H; right; assumption|].
    exists (bs ++ r). cbn [Main.flatMapiM_from]. rewrite Ea, Er.
    split; [reflexivity|]. split; [rewrite length_app; cbn [length]; lia|].
    intros x Hx. apply in_app_or in Hx. cbn [length]. destruct Hx as [Hx|Hx].
    + specialize (Ra x Hx). lia.
    + specialize (Rr x Hx). lia.
Qed.

Lemma length_vertexEntries (normals : list (Q * Q * Q)) (aos : list Q)
      (v : Q * Q * Q) (i : nat) :
  (i < length normals)%nat -> (i < length aos)%nat ->
  length (Main.vertexEntries normals aos v i) = 7%nat /\
  forall e, In e (Main.vertexEntries normals aos v i) -> e <> None.
Proof.
  intros Hn Ha. unfold Main.vertexEntries.
  apply nth_error_Some in Hn. apply nth_error_Some in Ha.
  destruct (nth_error normals i) as [[[n0 n1] n2]|]; [|congruence].
  destruct (nth_error aos i) as [a|]; [|congruence].
  destruct v as [[v0 v1] v2]. cbn [Main.list3 map app length In].
  split; [reflexivity|].
  intros e He. repeat (destruct He as [He|He]; [subst e; discriminate|]).
  contradiction.
Qed.

Lemma concat_mapi_entries (normals : list (Q * Q * Q)) (aos : list Q)
      (vertices : list (Q * Q * Q)) (n : nat) :
  (n + length vertices <= length normals)%nat ->
  (n + length vertices <= length aos)%nat ->
  length (concat (AnimFace.mapi_from n (Main.vertexEntries normals aos) vertices))
  = (7 * length vertices)%nat /\
  forall e, In e (concat (AnimFace.mapi_from n (Main.vertexEntries normals aos) vertices))
            -> e <> None.
Proof.
  revert n. induction vertices as [|v vertices IH]; intros n Hn Ha.
  - split; [reflexivity|]. contradiction.
  - cbn [length] in Hn, Ha. cbn [AnimFace.mapi_from concat].
    destruct (length_vertexEntries normals aos v n) as [L1 N1]; [lia|lia|].
    destruct (IH (S n)) as [L2 N2]; [lia|lia|].
    split; [rewrite length_app, L1, L2; cbn [length]; lia|].
    intros e He. apply in_app_or in He. destruct He as [He|He]; auto.
Qed.

Lemma Face_getIndices_range (face : Face.t) (offset : Z) :
  length (Face.getIndices face offset) = 6%nat /\
  forall x, In x (Face.getIndices face offset) -> offset <= x <= offset + 3.
Proof.
  unfold Face.getIndices. destruct (Face.aos face) as [[[a0 a1] a2] a3].
  destruct (negb _); cbn [length In]; split; try reflexivity; intros x; lia.
Qed.

Section FrameOfFaces.

Variable cos : Q -> Q.

Lemma getVertices_four (f : AnimFace.t) (progress : option Q) :
  endpointsPresent f = true ->
  exists verts, AnimFace.getVertices cos f progress = Some verts /\ length verts = 4%nat.
Proof.
  unfold endpointsPresent, AnimFace.getVertices.
  destruct (AnimFace.type f), (AnimFace.start f) as [s|], (AnimFace.end_ f) as [e|];
    intros H; try discriminate H;
    try (eexists; split; [reflexivity|apply length_Face_getVertices]).
  unfold Face.getVertices.
  destruct (Face.side s), (Face.side e);
    cbn [Face.SIDE_value Face.relPositions nth map AnimFace.mapiM_from nth_error];
    eexists; split; reflexivity.
Qed.

Lemma frameData_faces (faces : list AnimFace.t) (progress : Q) :
  (forall f, In f faces -> endpointsPresent f = true) ->
  exists fr raw,
    Main.frameData cos faces progress = Some fr /\
    Main.rawIndices faces = Some raw /\
    length (Main.vertData fr) = (28 * length faces)%nat /\
    (forall e, In e (Main.vertData fr) -> e <> None) /\
    length (Main.indices fr) = (6 * length faces)%nat /\
    (forall x, In x raw -> 0 <= x < 4 * Z.of_nat (length faces)) /\
    (4 * Z.of_nat (length faces) <= 65536 -> Main.indices fr = raw).
Proof.
  intros Hf. unfold Main.frameData.
  destruct (flatMapM_length
              (fun face => AnimFace.getVertices cos face (Some progress)) faces 4)
    as (vertices & Ev & Lv).
  { intros f Hin. apply getVertices_four. apply Hf. assumption. }
  destruct (flatMapM_length
              (fun face => match AnimFace.getNorm face None with
                           | Some n => Some (repeat n 4)
                           | None => None
                           end) faces 4)
    as (normals & En & Ln).
  { intros f Hin. specialize (Hf f Hin). revert Hf.
    unfold endpointsPresent, AnimFace.getNorm.
    destruct (AnimFace.type f), (AnimFace.start f) as [s|], (AnimFace.end_ f) as [e|];
      intros H; try discriminate H; eexists; split; reflexivity. }
  destruct (flatMapM_length
              (fun face => match AnimFace.getAOs face (Some progress) with
                           | Some a => Some (Main.list4 a)
                           | None => None
                           end) faces 4)
    as (aos & Ea & La).
  { intros f Hin. specialize (Hf f Hin). revert Hf.
    unfold endpointsPresent, AnimFace.getAOs.
    destruct (AnimFace.type f), (AnimFace.start f) as [s|], (AnimFace.end_ f) as [e|];
      intros H; try discriminate H;
      (eexists; split; [reflexivity|]);
      match goal with
      | |- length (Main.list4 ?t) = _ => destruct t as [[[? ?] ?] ?]; reflexivity
      end. }
  destruct (flatMapiM_from_range
              (fun face i => AnimFace.getIndices face (Z.of_nat i * 4)) faces 0)
    as (raw & Er & Lr & Rr).
  { intros f i Hin. specialize (Hf f Hin). revert Hf.
    unfold endpointsPresent, AnimFace.getIndices.
    destruct (AnimFace.type f), (AnimFace.start f) as [s|], (AnimFace.end_ f) as [e|];
      intros H; try discriminate H;
      (eexists; split; [reflexivity|apply Face_getIndices_range]). }
  rewrite Ev, En, Ea. unfold Main.rawIndices at 1. rewrite Er.
  exists (Main.mkFrame
            (concat (AnimFace.mapi (Main.vertexEntries normals aos) vertices))
            (map Main.toUint16 raw)), raw.
  split; [reflexivity|]. split; [exact Er|].
  cbn [Main.vertData Main.indices].
  destruct (concat_mapi_entries normals aos vertices 0) as [Lc Nc]; [lia|lia|].
  unfold AnimFace.mapi.
  split; [rewrite Lc; lia|]. split; [exact Nc|].
  split; [rewrite length_map; exact Lr|].
  split; [intros x Hx; specialize (Rr x Hx); lia|].
  intros Hsmall. rewrite <- (map_id raw) at 2. apply map_ext_in.
  intros x Hx. specialize (Rr x Hx). unfold Main.toUint16.
  apply Z.mod_small. lia.
Qed.

(** X26: The faces built from any state never make [render] throw.  The array
    handed to [Float32Array] has 7 entries for each of the 4 vertices of
    each face and no [undefined] entry; there are 6 indices per face, each,
    before the conversion to 16 bits, the index of one of the [4n] vertices;
    and up to 16384 faces the conversion changes no index. *)
Theorem frameData_of_state (state : GridState.t) (progress : Q) :
  let faces := AnimFace.makeFromGridState state in
  exists fr raw,
    Main.frameData cos faces progress = Some fr /\
    Main.rawIndices faces = Some raw /\
    length (Main.vertData fr) = (28 * length faces)%nat /\
    (forall e, In e (Main.vertData fr) -> e <> None) /\
    length (Main.indices fr) = (6 * length faces)%nat /\
    (forall x, In x raw -> 0 <= x < 4 * Z.of_nat (length faces)) /\
    (4 * Z.of_nat (length faces) <= 65536 -> Main.indices fr = raw).
Proof.
  intros faces. apply frameData_faces.
  intros f Hf. unfold faces in Hf.
  rewrite makeFromGridState_flat_map in Hf. apply in_flat_map in Hf.
  destruct Hf as ([[x y] z] & _ & Hf).
  apply (makeFromCell_endpoints state x y z). assumption.
Qed.

End FrameOfFaces.

Lemma frameData_of_state_witness :
  exists fr raw,
    Main.frameData (fun _ => 1%Q) (AnimFace.makeFromGridState stateFull111) (1 # 2)
    = Some fr /\
    Main.rawIndices (AnimFace.makeFromGridState stateFull111) = Some raw /\
    Main.indices fr = raw.
Proof.
  destruct (frameData_of_state (fun _ => 1%Q) stateFull111 (1 # 2))
    as (fr & raw & H1 & H2 & _ & _ & _ & _ & H3).
  exists fr, raw. split; [exact H1|]. split; [exact H2|].
  apply H3. vm_compute. discriminate.
Defined.
